(** * SimpleRenderer: a WebGPU compute frame pipeline and its event loop

    A shallow embedding of [src/main.ts]: the WGSL compute shader and its
    dispatch grid, the renderer object ([render], [update],
    [saveRenderedImage]), the event loop ([loop]) and the top-level
    try/catch/finally, followed by the properties of the frame pipeline
    and of the loop.

    Conventions.  A [u32] is a [Z] reduced modulo 2^32 ([wrap32]); a byte
    is a [Z] in [0, 256).  GPU buffers holding [array<u32>] are lists of
    words; the host sees them as little-endian bytes ([buffer_bytes]).
    Every platform call site that may throw is named by a [Stage]; what
    the platform does during one [update] call is given by the stage, if
    any, at which it throws. *)

From Stdlib Require Import ZArith Lia.
From stdpp Require Import base tactics option list strings.

Local Open Scope Z_scope.

(** ** Machine integers *)

Definition wrap32 (z : Z) : Z := z mod 2 ^ 32.

(** [Math.ceil(a / b)] for positive integers [a], [b]. *)
Definition ceil_div (a b : Z) : Z := (a + b - 1) / b.

(** ** The compute shader (the WGSL text passed to [createShaderModule]) *)

Record vec3u := Vec3 { vx : Z; vy : Z; vz : Z }.

(** [0xFF00FF00u], "ABGR: Opaque Green". *)
Definition GREEN : Z := 0xFF00FF00.

Module Shader.

(** [@workgroup_size(16, 16)] *)
Definition workgroup_size : Z := 16.

Section Entry.

(** The literals [800u] and [600u] of the shader text. *)
Variables width height : Z.

(** The value of [let index = global_id.y * 800u + global_id.x], in [u32]
    arithmetic. *)
Definition index_of (global_id : vec3u) : Z :=
  wrap32 (wrap32 (vy global_id * width) + vx global_id).

(** The store one invocation of [main] performs, if any:
    [if (index < 800u * 600u) { output[index] = 0xFF00FF00u; }]. *)
Definition main_store (global_id : vec3u) : option (Z * Z) :=
  let index := index_of global_id in
  if index <? wrap32 (width * height) then Some (index, GREEN) else None.

(** One invocation of [main] on the storage buffer [output].  The list
    update does nothing out of range; the guard keeps every store in
    range of a buffer of [width * height] words. *)
Definition main (global_id : vec3u) (output : list Z) : list Z :=
  match main_store global_id with
  | Some (index, value) => <[Z.to_nat index := value]> output
  | None => output
  end.

(** The invocations of [dispatchWorkgroups(gx, gy)]: one per local id of
    every workgroup, [global_id = workgroup_id * 16 + local_id]. *)
Definition invocations (gx gy : Z) : list vec3u :=
  wy ← seqZ 0 gy; wx ← seqZ 0 gx;
  ly ← seqZ 0 workgroup_size; lx ← seqZ 0 workgroup_size;
  [Vec3 (wx * workgroup_size + lx) (wy * workgroup_size + ly) 0].

(** The effect of a dispatch on the bound buffer when the invocations
    run in the order [order]. *)
Definition run (order : list vec3u) (output : list Z) : list Z :=
  foldl (fun out global_id => main global_id out) output order.

Definition dispatchWorkgroups (gx gy : Z) (output : list Z) : list Z :=
  run (invocations gx gy) output.

End Entry.

End Shader.

(** ** Host view of buffer memory *)

(** The four bytes of a [u32], least significant first. *)
Definition word_bytes (w : Z) : list Z :=
  [Z.land w 255; Z.land (Z.shiftr w 8) 255;
   Z.land (Z.shiftr w 16) 255; Z.land (Z.shiftr w 24) 255].

Definition buffer_bytes (words : list Z) : list Z := words ≫= word_bytes.

(** [data.length], [data.filter(byte => byte !== 0).length] and
    [data.findIndex(byte => byte !== 0)] of a [Uint8Array]. *)
Definition byteLength (data : list Z) : Z := Z.of_nat (length data).

Definition nonZeroCount (data : list Z) : Z :=
  Z.of_nat (length (filter (fun byte => byte ≠ 0) data)).

Fixpoint findIndex_from (i : Z) (data : list Z) : Z :=
  match data with
  | [] => -1
  | byte :: rest => if bool_decide (byte ≠ 0) then i else findIndex_from (i + 1) rest
  end.

Definition firstNonZero (data : list Z) : Z := findIndex_from 0 data.

(** ** The platform: call sites, errors, effects *)

(** The call sites of [render] and [update] that may throw, in program
    order. *)
Inductive Stage :=
  | SBindGroupLayout   (* device.createBindGroupLayout *)
  | SPipelineLayout    (* device.createPipelineLayout *)
  | SShaderModule      (* device.createShaderModule *)
  | SComputePipeline   (* device.createComputePipeline *)
  | SBindGroup         (* device.createBindGroup *)
  | SRenderEncoder     (* createCommandEncoder .. computePass.end, finish *)
  | SRenderSubmit      (* device.queue.submit, in render *)
  | SStagingBuffer     (* device.createBuffer, in update *)
  | SCopyEncoder       (* createCommandEncoder, copyBufferToBuffer, finish *)
  | SCopySubmit        (* device.queue.submit, in update *)
  | SMapAsync          (* await stagingBuffer.mapAsync *)
  | SMappedRange       (* stagingBuffer.getMappedRange *)
  | SSaveImage         (* new PNG, PNG.sync.write *)
  | SCreateTexture     (* textureCreator().createTexture *)
  | STextureUpdate     (* sdlTexture.update *)
  | SCanvasClear       (* canvas.clear *)
  | SCanvasCopy        (* canvas.copy *)
  | SCanvasPresent     (* canvas.present *)
  | SUnmap.            (* stagingBuffer.unmap *)

#[global] Instance Stage_eq_dec : EqDecision Stage.
Proof. solve_decision. Defined.

(** The call sites of the start-up code. *)
Inductive StartupStage :=
  | SRequestAdapter | SRequestDevice | SBuildWindow | SRenderBuffer.

#[global] Instance StartupStage_eq_dec : EqDecision StartupStage.
Proof. solve_decision. Defined.

Inductive Origin :=
  | InFrame (stage : Stage)
  | InStartup (stage : StartupStage)
  | InNext            (* window.events().next() *)
  | InPngSet          (* RangeError of png.data.set *)
  | NoAdapter.        (* new Error("No appropriate GPUAdapter found") *)

(** A thrown value: where it came from and whether it is a [DOMException]
    named "AbortError", the one thing the program ever asks of an error. *)
Record Error := Err { origin : Origin; isAbortError : bool }.

(** The platform's behaviour during one frame: the call site that throws,
    if any, and the kind of error thrown there. *)
Record Fault := { fault_stage : Stage; fault_abort : bool }.

Inductive Usage := STORAGE | COPY_SRC | COPY_DST | MAP_READ.

Inductive Command :=
  | ComputePass (gx gy : Z)
  | CopyBufferToBuffer (destination : nat) (size : Z).

(** What the program does to the outside world, in order. *)
Inductive Effect :=
  | Log (msg : string) (args : list Z)
  | LogError (msg : string) (error : Error)
  | RequestAdapter
  | RequestDevice
  | BuildWindow (width height : Z)
  | CreateBuffer (size : Z) (usage : list Usage)
  | CreateBindGroupLayout
  | CreatePipelineLayout
  | CreateShaderModule
  | CreateComputePipeline
  | CreateBindGroup
  | Encode (cmd : Command)
  | Submit (cmd : Command)
  | MapAsync (buffer : nat)
  | GetMappedRange (buffer : nat) (arrayBuffer : nat)
  | Unmap (buffer : nat)
  | PngWrite (data : list Z) (width height : Z)
  | CreateTexture (width height : Z)
  | TextureUpdate (pixels : list Z) (pitch : Z)
  | CanvasClear
  | CanvasCopy
  | CanvasPresent
  | DenoExit (code : Z).

(** ** The store: device memory, JS heap and the renderer's fields *)

Inductive MapState := Unmapped | Mapped.

(** A mappable GPU buffer: its memory as [u32] words and its mapping. *)
Record GPUBuffer := { contents : list Z; mapState : MapState }.

(** An [ArrayBuffer] returned by [getMappedRange] is a window on the
    mapped memory of its buffer, not a copy, until [unmap] detaches it. *)
Inductive ArrayBuffer := MappedRange (buffer : nat) | Detached.

(** [new Uint8Array(arrayBuffer)]: a view on the whole [ArrayBuffer]. *)
Record Uint8Array := { u8_buffer : nat }.

Record World := {
  frameCount : Z;                    (* this.frameCount *)
  renderBuffer : list Z;             (* memory of this.renderBuffer *)
  stagingBuffers : list GPUBuffer;   (* buffers made by update, by handle *)
  arrayBuffers : list ArrayBuffer;   (* the JS heap, by handle *)
  trace : list Effect                (* effects so far, oldest first *)
}.

Definition boot : World :=
  {| frameCount := 0; renderBuffer := []; stagingBuffers := [];
     arrayBuffers := []; trace := [] |}.

(** ** Computations: state, exceptions, process exit *)

Inductive Result (A : Type) :=
  | Ok (a : A)
  | Throw (e : Error)
  | Exited (code : Z).     (* Deno.exit: nothing runs afterwards *)
Arguments Ok {A} a.
Arguments Throw {A} e.
Arguments Exited {A} code.

Definition M (A : Type) : Type := World -> Result A * World.

Definition ret {A} (a : A) : M A := fun w => (Ok a, w).

Definition bind {A B} (m : M A) (k : A -> M B) : M B :=
  fun w =>
    match m w with
    | (Ok a, w') => k a w'
    | (Throw e, w') => (Throw e, w')
    | (Exited c, w') => (Exited c, w')
    end.

Definition throw {A} (e : Error) : M A := fun w => (Throw e, w).

(** [try { body } catch (error) { handler error }] *)
Definition try_catch {A} (body : M A) (handler : Error -> M A) : M A :=
  fun w =>
    match body w with
    | (Throw e, w') => handler e w'
    | r => r
    end.

(** [try { body } finally { final }]: [final] runs on normal and on
    exceptional completion of [body] and its own abrupt completion wins. *)
Definition try_finally {A} (body : M A) (final : M unit) : M A :=
  fun w =>
    match body w with
    | (Exited c, w') => (Exited c, w')
    | (r, w') =>
        match final w' with
        | (Ok _, w'') => (r, w'')
        | (Throw e, w'') => (Throw e, w'')
        | (Exited c, w'') => (Exited c, w'')
        end
    end.

Declare Scope prog_scope.
Delimit Scope prog_scope with prog.
Notation "x <- m ;; k" := (bind m (fun x => k))
  (at level 100, m at next level, k at level 200, right associativity)
  : prog_scope.
Notation "m ;; k" := (bind m (fun _ => k))
  (at level 100, k at level 200, right associativity) : prog_scope.
Local Open Scope prog_scope.

Definition get {A} (field : World -> A) : M A := fun w => (Ok (field w), w).

Definition emit (e : Effect) : M unit :=
  fun w =>
    (Ok tt, {| frameCount := frameCount w; renderBuffer := renderBuffer w;
               stagingBuffers := stagingBuffers w;
               arrayBuffers := arrayBuffers w; trace := trace w ++ [e] |}).

Definition log (msg : string) (args : list Z) : M unit := emit (Log msg args).
Definition logError (msg : string) (e : Error) : M unit := emit (LogError msg e).

(** A call at site [s]: throws there when the platform's plan says so. *)
Definition call (plan : option Fault) (s : Stage) : M unit :=
  match plan with
  | Some f =>
      if bool_decide (fault_stage f = s)
      then throw (Err (InFrame s) (fault_abort f))
      else ret tt
  | None => ret tt
  end.

Definition modify (f : World -> World) : M unit := fun w => (Ok tt, f w).

Definition with_frameCount (n : Z) (w : World) : World :=
  {| frameCount := n; renderBuffer := renderBuffer w;
     stagingBuffers := stagingBuffers w; arrayBuffers := arrayBuffers w;
     trace := trace w |}.

Definition with_renderBuffer (words : list Z) (w : World) : World :=
  {| frameCount := frameCount w; renderBuffer := words;
     stagingBuffers := stagingBuffers w; arrayBuffers := arrayBuffers w;
     trace := trace w |}.

Definition with_stagingBuffers (bs : list GPUBuffer) (w : World) : World :=
  {| frameCount := frameCount w; renderBuffer := renderBuffer w;
     stagingBuffers := bs; arrayBuffers := arrayBuffers w;
     trace := trace w |}.

Definition with_arrayBuffers (abs : list ArrayBuffer) (w : World) : World :=
  {| frameCount := frameCount w; renderBuffer := renderBuffer w;
     stagingBuffers := stagingBuffers w; arrayBuffers := abs;
     trace := trace w |}.

(** ** Device and heap operations *)

(** The memory of a new buffer of [size] bytes: zero-filled words. *)
Definition zeroed (size : Z) : list Z := replicate (Z.to_nat (size / 4)) 0.

(** [copyBufferToBuffer(src, 0, dst, 0, size)] on the two memories. *)
Definition copy_words (size : Z) (src dst : list Z) : list Z :=
  take (Z.to_nat (size / 4)) src ++ drop (Z.to_nat (size / 4)) dst.

Definition set_contents (words : list Z) (b : GPUBuffer) : GPUBuffer :=
  {| contents := words; mapState := mapState b |}.

Definition set_mapState (s : MapState) (b : GPUBuffer) : GPUBuffer :=
  {| contents := contents b; mapState := s |}.

(** What the queue does with a submitted command.  The queue runs its
    commands in submission order and [mapAsync] resolves after them, so
    the model runs each command as it is submitted.  The compute pass
    runs the pipeline of [render], whose shader text has the literals 800
    and 600, on the bound [renderBuffer]. *)
Definition execute (cmd : Command) (w : World) : World :=
  match cmd with
  | ComputePass gx gy =>
      with_renderBuffer
        (Shader.dispatchWorkgroups 800 600 gx gy (renderBuffer w)) w
  | CopyBufferToBuffer dst size =>
      with_stagingBuffers
        (alter (fun b => set_contents
                           (copy_words size (renderBuffer w) (contents b)) b)
               dst (stagingBuffers w)) w
  end.

(** [device.queue.submit([cmd])] at call site [s]. *)
Definition submit (plan : option Fault) (s : Stage) (cmd : Command) : M unit :=
  call plan s ;; modify (execute cmd) ;; emit (Submit cmd).

(** [device.createBuffer({size, usage})] in [update]; the handle of the
    new buffer is its position in the store. *)
Definition createBuffer (plan : option Fault) (size : Z) (usage : list Usage)
  : M nat :=
  call plan SStagingBuffer ;;
  handle <- get (fun w => length (stagingBuffers w)) ;;
  modify (fun w =>
    with_stagingBuffers
      (stagingBuffers w ++ [{| contents := zeroed size; mapState := Unmapped |}])
      w) ;;
  emit (CreateBuffer size usage) ;;
  ret handle.

(** [await buffer.mapAsync(GPUMapMode.READ)] *)
Definition mapAsync (plan : option Fault) (buffer : nat) : M unit :=
  call plan SMapAsync ;;
  modify (fun w =>
    with_stagingBuffers (alter (set_mapState Mapped) buffer (stagingBuffers w)) w) ;;
  emit (MapAsync buffer).

(** [new Uint8Array(buffer.getMappedRange())]: a new [ArrayBuffer] over
    the mapped memory, and a view on it.  Nothing is copied. *)
Definition getMappedRange (plan : option Fault) (buffer : nat) : M Uint8Array :=
  call plan SMappedRange ;;
  handle <- get (fun w => length (arrayBuffers w)) ;;
  modify (fun w => with_arrayBuffers (arrayBuffers w ++ [MappedRange buffer]) w) ;;
  emit (GetMappedRange buffer handle) ;;
  ret {| u8_buffer := handle |}.

Definition detach (buffer : nat) (ab : ArrayBuffer) : ArrayBuffer :=
  match ab with
  | MappedRange b => if bool_decide (b = buffer) then Detached else ab
  | Detached => Detached
  end.

(** [buffer.unmap()]: the buffer is unmapped and every [ArrayBuffer]
    handed out by [getMappedRange] on it is detached. *)
Definition unmap (plan : option Fault) (buffer : nat) : M unit :=
  call plan SUnmap ;;
  modify (fun w =>
    with_arrayBuffers (detach buffer <$> arrayBuffers w)
      (with_stagingBuffers
         (alter (set_mapState Unmapped) buffer (stagingBuffers w)) w)) ;;
  emit (Unmap buffer).

(** The bytes a view shows, given the buffers and the heap as they are
    now: those of the mapped memory it is a window on, and none once its
    [ArrayBuffer] is detached. *)
Definition view_bytes (buffers : list GPUBuffer) (heap : list ArrayBuffer)
    (data : Uint8Array) : list Z :=
  match heap !! u8_buffer data with
  | Some (MappedRange b) =>
      match buffers !! b with
      | Some buf => buffer_bytes (contents buf)
      | None => []
      end
  | _ => []
  end.

Definition read (data : Uint8Array) : M (list Z) :=
  get (fun w => view_bytes (stagingBuffers w) (arrayBuffers w) data).

Fixpoint for_each {A} (l : list A) (body : A -> M unit) : M unit :=
  match l with
  | [] => ret tt
  | x :: rest => body x ;; for_each rest body
  end.

(** ** class SimpleRenderer *)

(** [render()]: the pipeline objects are built, the pass is recorded and
    submitted inside the [try]; the counter moves after it. *)
Definition render (plan : option Fault) : M unit :=
  n <- get frameCount ;;
  log "Rendering frame" [n] ;;
  try_catch
    (call plan SBindGroupLayout ;; emit CreateBindGroupLayout ;;
     call plan SPipelineLayout ;; emit CreatePipelineLayout ;;
     call plan SShaderModule ;; emit CreateShaderModule ;;
     call plan SComputePipeline ;; emit CreateComputePipeline ;;
     call plan SBindGroup ;; emit CreateBindGroup ;;
     call plan SRenderEncoder ;;
     emit (Encode (ComputePass (ceil_div 800 16) (ceil_div 600 16))) ;;
     submit plan SRenderSubmit (ComputePass (ceil_div 800 16) (ceil_div 600 16)) ;;
     log "Render pass completed" [])
    (fun error => logError "Error during rendering:" error ;; throw error) ;;
  modify (fun w => with_frameCount (frameCount w + 1) w).

(** [data[i]] is [undefined] past the end of [data]; the model logs the
    components that exist, so the pixel logs are the source's for data of
    20 bytes or more.  The PNG encodes its own buffer of
    [width * height * 4] bytes, into which [data] is copied; the model
    records [data] itself as encoded, which is that buffer when [data]
    has [width * height * 4] bytes, as it has in [update]. *)
Definition saveRenderedImage (plan : option Fault) (data : Uint8Array)
    (width height : Z) : M unit :=
  log "Saving rendered image" [] ;;
  bytes <- read data ;;
  log "Data length:" [byteLength bytes] ;;
  log "Expected length:" [width * height * 4] ;;
  log "First few pixels of data:" [] ;;
  for_each [0; 4; 8; 12; 16] (fun i =>
    bytes <- read data ;;
    log "Pixel" (i / 4 :: take 4 (drop (Z.to_nat i) bytes))) ;;
  call plan SSaveImage ;;
  bytes <- read data ;;
  (if byteLength bytes <=? width * height * 4
   then ret tt else throw (Err InPngSet false)) ;;
  emit (PngWrite bytes width height) ;;
  n <- get frameCount ;;
  log "Rendered image saved as rendered_image_.png" [n].

(** [update()]: one frame, from [render] to [unmap], inside a [try] whose
    [catch] logs the error and goes on. *)
Definition update (plan : option Fault) : M unit :=
  n <- get frameCount ;;
  log "Updating frame" [n] ;;
  try_catch
    (render plan ;;
     stagingBuffer <- createBuffer plan (800 * 600 * 4) [COPY_DST; MAP_READ] ;;
     call plan SCopyEncoder ;;
     emit (Encode (CopyBufferToBuffer stagingBuffer (800 * 600 * 4))) ;;
     submit plan SCopySubmit (CopyBufferToBuffer stagingBuffer (800 * 600 * 4)) ;;
     mapAsync plan stagingBuffer ;;
     data <- getMappedRange plan stagingBuffer ;;
     log "Buffer data summary:" [] ;;
     bytes <- read data ;;
     log "Total bytes:" [byteLength bytes] ;;
     bytes <- read data ;;
     log "Non-zero bytes:" [nonZeroCount bytes] ;;
     bytes <- read data ;;
     log "First non-zero byte index:" [firstNonZero bytes] ;;
     saveRenderedImage plan data 800 600 ;;
     call plan SCreateTexture ;; emit (CreateTexture 800 600) ;;
     call plan STextureUpdate ;;
     pixels <- read data ;;
     emit (TextureUpdate pixels (800 * 4)) ;;
     call plan SCanvasClear ;; emit CanvasClear ;;
     call plan SCanvasCopy ;; emit CanvasCopy ;;
     call plan SCanvasPresent ;; emit CanvasPresent ;;
     unmap plan stagingBuffer ;;
     log "Frame updated successfully" [])
    (fun error => logError "Error during update:" error).

(** ** The event stream and the loop *)

Inductive EventType := Draw | Quit | KeyDown | MouseMotion | Unhandled (code : Z).

(** One [await renderer.window.events().next()] that does not end the
    stream: an event, or a rejection. *)
Inductive NextResult := Yields (type : EventType) | Rejects (abort : bool).

(** One turn of the environment: what [next()] does, and what the
    platform does should the program go on to draw a frame. *)
Record Tick := { tick_next : NextResult; tick_plan : option Fault }.

(** How one pass through the body of [while (true)] ends. *)
Inductive Control := Continue | Break | Return.

(** [next()] on the rest of the stream; [None] is [event.done]. *)
Definition events_next (t : option Tick) : M (option EventType) :=
  match t with
  | None => ret None
  | Some t =>
      match tick_next t with
      | Yields type => ret (Some type)
      | Rejects abort => throw (Err InNext abort)
      end
  end.

Definition plan_of (t : option Tick) : option Fault :=
  match t with Some t => tick_plan t | None => None end.

Definition logEvent (msg : string) (type : EventType) : M unit :=
  match type with
  | Unhandled code => log msg [code]
  | _ => log msg []
  end.

Definition iteration (t : option Tick) : M Control :=
  try_catch
    (event <- events_next t ;;
     match event with
     | None => log "Event stream closed" [] ;; ret Break
     | Some type =>
         logEvent "Received event:" type ;;
         match type with
         | Draw =>
             log "Draw event received" [] ;;
             update (plan_of t) ;;
             ret Continue
         | Quit => log "Quit event received" [] ;; ret Return
         | KeyDown => log "KeyDown event received" [] ;; ret Continue
         | MouseMotion => ret Continue
         | Unhandled _ => logEvent "Unhandled event type:" type ;; ret Continue
         end
     end)
    (fun error =>
       logError "Error in event loop:" error ;;
       if isAbortError error
       then log "Event stream aborted" [] ;; ret Break
       else ret Continue).

(** The [while (true)] over a stream that closes after the listed turns;
    the result is how the loop was left and the turns not consumed. *)
Fixpoint loop_from (stream : list Tick) : M (Control * list Tick) :=
  match stream with
  | [] => c <- iteration None ;; ret (c, [])
  | t :: rest =>
      c <- iteration (Some t) ;;
      match c with
      | Continue => loop_from rest
      | _ => ret (c, rest)
      end
  end.

Definition loop (stream : list Tick) : M (list Tick) :=
  log "Entering main loop" [] ;;
  r <- loop_from stream ;;
  match fst r with
  | Return => ret (snd r)
  | _ => log "Exiting main loop" [] ;; ret (snd r)
  end.

(** ** Start-up and the top level *)

Inductive AdapterResult := AdapterFound | AdapterNull.

(** The platform at start-up: whether [requestAdapter] finds an adapter,
    and the call site that throws, if any. *)
Record Startup := {
  adapter : AdapterResult;
  startup_fault : option (StartupStage * bool)
}.

Definition healthy : Startup :=
  {| adapter := AdapterFound; startup_fault := None |}.

Definition startup_call (env : Startup) (s : StartupStage) : M unit :=
  match startup_fault env with
  | Some (s', abort) =>
      if bool_decide (s' = s) then throw (Err (InStartup s) abort) else ret tt
  | None => ret tt
  end.

Definition getDevice (env : Startup) : M unit :=
  log "Requesting WebGPU adapter" [] ;;
  startup_call env SRequestAdapter ;;
  emit RequestAdapter ;;
  match adapter env with
  | AdapterNull => throw (Err NoAdapter false)
  | AdapterFound =>
      log "Requesting WebGPU device" [] ;;
      startup_call env SRequestDevice ;;
      emit RequestDevice ;;
      log "WebGPU device created" []
  end.

(** [new SimpleRenderer(device)] *)
Definition constructor (env : Startup) : M unit :=
  modify (with_frameCount 0) ;;
  startup_call env SBuildWindow ;;
  emit (BuildWindow 800 600) ;;
  log "SimpleRenderer constructed" [] ;;
  startup_call env SRenderBuffer ;;
  modify (with_renderBuffer (zeroed (800 * 600 * 4))) ;;
  emit (CreateBuffer (800 * 600 * 4) [STORAGE; COPY_SRC]).

Definition init : M unit := log "Initializing SimpleRenderer" [].

(** [Deno.exit(code)] *)
Definition exit (code : Z) : M unit :=
  emit (DenoExit code) ;; (fun w => (Exited code, w)).

Definition main (env : Startup) (stream : list Tick) : M unit :=
  log "Starting application" [] ;;
  try_finally
    (try_catch
       (getDevice env ;;
        constructor env ;;
        init ;;
        loop stream ;;
        log "Application finished normally" [])
       (fun error => logError "Fatal error:" error))
    (log "Cleaning up..." [] ;; exit 0).

(** The status a run ends with: the argument of [Deno.exit], 0 when the
    module runs to its end, 1 when an error escapes it. *)
Definition exit_status (r : Result unit) : Z :=
  match r with
  | Exited code => code
  | Ok _ => 0
  | Throw _ => 1
  end.

(** The world in which the loop starts on a healthy platform. *)
Definition started : World :=
  snd ((getDevice healthy ;; constructor healthy ;; init) boot).

(** ** Observations, used to state the properties *)

(** The invariant of the renderer: [renderBuffer] has one word per texel
    of the 800 x 600 frame. *)
Definition wf (w : World) : Prop :=
  length (renderBuffer w) = Z.to_nat (800 * 600).

(** The bytes of a frame whose texels are all [GREEN]. *)
Definition green_frame : list Z :=
  buffer_bytes (replicate (Z.to_nat (800 * 600)) GREEN).

(** The four bytes of texel [i] of a snapshot, and the [u32] they spell. *)
Definition texel (data : list Z) (i : nat) : list Z :=
  take 4 (drop (4 * i) data).

Definition word_of_bytes (bytes : list Z) : Z :=
  foldr (fun byte acc => byte + 256 * acc) 0 bytes.

(** The pixel snapshots handed to the window texture, oldest first. *)
Definition snapshots (t : list Effect) : list (list Z) :=
  omap (fun e => match e with TextureUpdate d _ => Some d | _ => None end) t.

(** The snapshots handed to the image encoder. *)
Definition encoded (t : list Effect) : list (list Z) :=
  omap (fun e => match e with PngWrite d _ _ => Some d | _ => None end) t.

(** How many effects of a trace satisfy [p]. *)
Definition count_effects (p : Effect -> bool) (t : list Effect) : nat :=
  length (filter (fun e => p e = true) t).

Definition is_pipeline (e : Effect) : bool :=
  match e with CreateComputePipeline => true | _ => false end.

Definition is_shader_module (e : Effect) : bool :=
  match e with CreateShaderModule => true | _ => false end.

Definition is_bind_group_layout (e : Effect) : bool :=
  match e with CreateBindGroupLayout => true | _ => false end.

Definition is_output_buffer (e : Effect) : bool :=
  match e with CreateBuffer _ [STORAGE; COPY_SRC] => true | _ => false end.

(** The steps of a frame, each marked by the effect that completes it. *)
Inductive Step := StepRender | StepPull | StepEncode | StepPresent.

Definition step_of (e : Effect) : option Step :=
  match e with
  | Submit (ComputePass _ _) => Some StepRender
  | GetMappedRange _ _ => Some StepPull
  | PngWrite _ _ _ => Some StepEncode
  | CanvasPresent => Some StepPresent
  | _ => None
  end.

Definition steps (t : list Effect) : list Step := omap step_of t.

(** The effects of one [update] call in which nothing throws: [n] is
    [frameCount] on entry, [sb] and [ab] the handles of the staging
    buffer and of its mapped range, [d] the bytes the view shows. *)
Definition frame_effects (n : Z) (sb ab : nat) (d : list Z) : list Effect :=
  [ Log "Updating frame" [n];
    Log "Rendering frame" [n];
    CreateBindGroupLayout; CreatePipelineLayout; CreateShaderModule;
    CreateComputePipeline; CreateBindGroup;
    Encode (ComputePass 50 38); Submit (ComputePass 50 38);
    Log "Render pass completed" [];
    CreateBuffer 1920000 [COPY_DST; MAP_READ];
    Encode (CopyBufferToBuffer sb 1920000);
    Submit (CopyBufferToBuffer sb 1920000);
    MapAsync sb; GetMappedRange sb ab;
    Log "Buffer data summary:" [];
    Log "Total bytes:" [byteLength d];
    Log "Non-zero bytes:" [nonZeroCount d];
    Log "First non-zero byte index:" [firstNonZero d];
    Log "Saving rendered image" [];
    Log "Data length:" [byteLength d];
    Log "Expected length:" [1920000];
    Log "First few pixels of data:" [];
    Log "Pixel" (0 :: take 4 d);
    Log "Pixel" (1 :: take 4 (drop 4 d));
    Log "Pixel" (2 :: take 4 (drop 8 d));
    Log "Pixel" (3 :: take 4 (drop 12 d));
    Log "Pixel" (4 :: take 4 (drop 16 d));
    PngWrite d 800 600;
    Log "Rendered image saved as rendered_image_.png" [n + 1];
    CreateTexture 800 600; TextureUpdate d 3200;
    CanvasClear; CanvasCopy; CanvasPresent;
    Unmap sb;
    Log "Frame updated successfully" [] ].

(** [k] frames in a row on a platform that never throws. *)
Definition frames (k : nat) (w : World) : World :=
  Nat.iter k (fun w => snd (update None w)) w.

(** A turn that neither ends the loop nor the stream. *)
Definition goes_on (t : Tick) : bool :=
  match tick_next t with
  | Yields Quit => false
  | Yields _ => true
  | Rejects abort => negb abort
  end.

(** [m] never ends the process. *)
Definition stays {A} (m : M A) : Prop :=
  forall w, match fst (m w) with Exited _ => False | _ => True end.

(** [m] neither throws nor ends the process. *)
Definition completes {A} (m : M A) : Prop :=
  forall w, exists a, fst (m w) = Ok a.

(** [m] keeps the invariant of the renderer. *)
Definition keeps_wf {A} (m : M A) : Prop :=
  forall w, wf w -> wf (snd (m w)).

Definition is_unmap (e : Effect) : bool :=
  match e with Unmap _ => true | _ => false end.

(** [k] calls of [render] in a row on a platform that never throws. *)
Definition renders (k : nat) (w : World) : World :=
  Nat.iter k (fun w => snd (render None w)) w.

(** The call sites of [render]. *)
Definition in_render (s : Stage) : bool :=
  match s with
  | SBindGroupLayout | SPipelineLayout | SShaderModule | SComputePipeline
  | SBindGroup | SRenderEncoder | SRenderSubmit => true
  | _ => false
  end.

(** The call sites reached while the staging buffer is mapped. *)
Definition while_mapped (s : Stage) : bool :=
  match s with
  | SMappedRange | SSaveImage | SCreateTexture | STextureUpdate
  | SCanvasClear | SCanvasCopy | SCanvasPresent | SUnmap => true
  | _ => false
  end.

(** The effects of one [render] call in which nothing throws. *)
Definition render_effects (n : Z) : list Effect :=
  [ Log "Rendering frame" [n];
    CreateBindGroupLayout; CreatePipelineLayout; CreateShaderModule;
    CreateComputePipeline; CreateBindGroup;
    Encode (ComputePass 50 38); Submit (ComputePass 50 38);
    Log "Render pass completed" [] ].

(** [w] with further effects on its trace. *)
Definition after (w : World) (es : list Effect) : World :=
  {| frameCount := frameCount w; renderBuffer := renderBuffer w;
     stagingBuffers := stagingBuffers w; arrayBuffers := arrayBuffers w;
     trace := trace w ++ es |}.

(** What [render] has done when the call at site [s] throws. *)
Definition render_progress (s : Stage) : list Effect :=
  match s with
  | SBindGroupLayout => []
  | SPipelineLayout => [CreateBindGroupLayout]
  | SShaderModule => [CreateBindGroupLayout; CreatePipelineLayout]
  | SComputePipeline =>
      [CreateBindGroupLayout; CreatePipelineLayout; CreateShaderModule]
  | SBindGroup =>
      [CreateBindGroupLayout; CreatePipelineLayout; CreateShaderModule;
       CreateComputePipeline]
  | SRenderEncoder =>
      [CreateBindGroupLayout; CreatePipelineLayout; CreateShaderModule;
       CreateComputePipeline; CreateBindGroup]
  | _ =>
      [CreateBindGroupLayout; CreatePipelineLayout; CreateShaderModule;
       CreateComputePipeline; CreateBindGroup; Encode (ComputePass 50 38)]
  end.

(** The staging buffer a frame leaves behind when the call at site [s]
    throws: none before it is created, a zero-filled one until the copy is
    submitted, one with the frame in it afterwards, still mapped if the
    failure comes between [mapAsync] and the end of [unmap]. *)
Definition left_behind (s : Stage) : list GPUBuffer :=
  if in_render s then []
  else
    match s with
    | SStagingBuffer => []
    | SCopyEncoder | SCopySubmit =>
        [{| contents := zeroed (800 * 600 * 4); mapState := Unmapped |}]
    | SMapAsync =>
        [{| contents := replicate (Z.to_nat (800 * 600)) GREEN;
            mapState := Unmapped |}]
    | _ =>
        [{| contents := replicate (Z.to_nat (800 * 600)) GREEN;
            mapState := Mapped |}]
    end.


Definition is_draw (t : Tick) : bool :=
  match tick_next t with Yields Draw => true | _ => false end.




Definition is_log (e : Effect) : bool :=
  match e with Log _ _ | LogError _ _ => true | _ => false end.

(** Start-up fails: no adapter, or a call that throws on the way. *)
Definition startup_fails (env : Startup) : bool :=
  match adapter env, startup_fault env with
  | AdapterFound, None => false
  | AdapterFound, Some _ => true
  | AdapterNull, _ => true
  end.

(** The world in which [main] enters the loop on a healthy platform. *)
Definition start (w : World) : World :=
  snd ((getDevice healthy ;; constructor healthy ;; init)
         (after w [Log "Starting application" []])).



(** A turn that goes on without drawing. *)
Definition idle (t : Tick) : bool := goes_on t && negb (is_draw t).

Definition is_pipeline_layout (e : Effect) : bool :=
  match e with CreatePipelineLayout => true | _ => false end.

(** The place of a call site in the program order of a frame. *)
Definition site_rank (s : Stage) : nat :=
  match s with
  | SBindGroupLayout => 0 | SPipelineLayout => 1 | SShaderModule => 2
  | SComputePipeline => 3 | SBindGroup => 4 | SRenderEncoder => 5
  | SRenderSubmit => 6 | SStagingBuffer => 7 | SCopyEncoder => 8
  | SCopySubmit => 9 | SMapAsync => 10 | SMappedRange => 11
  | SSaveImage => 12 | SCreateTexture => 13 | STextureUpdate => 14
  | SCanvasClear => 15 | SCanvasCopy => 16 | SCanvasPresent => 17
  | SUnmap => 18
  end%nat.

(** The platform throws at [site] or at a call before it. *)
Definition stops_by (site : Stage) (plan : option Fault) : bool :=
  match plan with
  | Some f => (site_rank (fault_stage f) <=? site_rank site)%nat
  | None => false
  end.

(** The bytes of a view are those of mapped GPU memory: its [ArrayBuffer]
    is the mapped range of a staging buffer that is mapped. *)
Definition on_mapped_memory (w : World) (data : Uint8Array) : bool :=
  match arrayBuffers w !! u8_buffer data with
  | Some (MappedRange b) =>
      match stagingBuffers w !! b with
      | Some buf =>
          match mapState buf with Mapped => true | Unmapped => false end
      | None => false
      end
  | _ => false
  end.

(** How a pass through the loop body ends, by what [next()] brings. *)
Definition pass_end (t : option Tick) : Control :=
  match t with
  | None => Break
  | Some t =>
      match tick_next t with
      | Yields Quit => Return
      | Rejects true => Break
      | _ => Continue
      end
  end.

(** * Properties *)

(** ** Arithmetic *)

Lemma wrap32_range z : 0 <= wrap32 z < 2 ^ 32.
Proof. unfold wrap32. apply Z.mod_pos_bound. lia. Qed.

Lemma wrap32_small z : 0 <= z < 2 ^ 32 -> wrap32 z = z.
Proof. intros. unfold wrap32. apply Z.mod_small. lia. Qed.

Lemma wrap32_le z : 0 <= z -> wrap32 z <= z.
Proof. intros. unfold wrap32. apply Z.mod_le; lia. Qed.

Lemma ceil_div_cover a b : 0 < b -> a <= ceil_div a b * b.
Proof.
  intros Hb. unfold ceil_div.
  pose proof (Z.mod_pos_bound (a + b - 1) b Hb).
  pose proof (Z.div_mod (a + b - 1) b). lia.
Qed.

(** ** The shader *)

Section ShaderFacts.

Variables width height : Z.

Lemma main_store_Some gid i v :
  Shader.main_store width height gid = Some (i, v) ->
  i = Shader.index_of width gid /\ v = GREEN /\ 0 <= i < wrap32 (width * height).
Proof.
  unfold Shader.main_store. cbv zeta.
  destruct (Z.ltb_spec (Shader.index_of width gid) (wrap32 (width * height)));
    [|discriminate].
  intros [= <- <-]. repeat split; [|done].
  unfold Shader.index_of. apply wrap32_range.
Qed.

Lemma main_store_None gid :
  wrap32 (width * height) <= Shader.index_of width gid ->
  Shader.main_store width height gid = None.
Proof.
  intros Hge. unfold Shader.main_store. cbv zeta.
  destruct (Z.ltb_spec (Shader.index_of width gid) (wrap32 (width * height)));
    [lia|done].
Qed.

Lemma main_length gid out : length (Shader.main width height gid out) = length out.
Proof.
  unfold Shader.main. destruct (Shader.main_store width height gid) as [[i v]|]; [|done].
  apply length_insert.
Qed.

Lemma run_length order out : length (Shader.run width height order out) = length out.
Proof.
  unfold Shader.run. revert out.
  induction order as [|gid order IH]; intros out; [done|].
  cbn [foldl]. rewrite IH. apply main_length.
Qed.

(** A word that is green stays green, whatever runs next. *)
Lemma main_keeps_green gid out (i : nat) :
  out !! i = Some GREEN -> Shader.main width height gid out !! i = Some GREEN.
Proof.
  intros Hi. unfold Shader.main.
  destruct (Shader.main_store width height gid) as [[j v]|] eqn:Hst; [|done].
  apply main_store_Some in Hst as (_ & -> & _).
  destruct (decide (Z.to_nat j = i)) as [<-|Hne].
  - apply list_lookup_insert_eq. by eapply lookup_lt_Some.
  - by rewrite list_lookup_insert_ne.
Qed.

Lemma run_keeps_green order out (i : nat) :
  out !! i = Some GREEN -> Shader.run width height order out !! i = Some GREEN.
Proof.
  unfold Shader.run. revert out.
  induction order as [|gid order IH]; intros out Hi; [done|].
  cbn [foldl]. apply IH. by apply main_keeps_green.
Qed.

(** A word some invocation stores to is green after the dispatch, in
    whatever order the invocations run. *)
Lemma run_writes order out gid (i : nat) :
  gid ∈ order ->
  Shader.main_store width height gid = Some (Z.of_nat i, GREEN) ->
  (i < length out)%nat ->
  Shader.run width height order out !! i = Some GREEN.
Proof.
  unfold Shader.run. revert out.
  induction order as [|g order IH]; intros out Hin Hst Hlt.
  { by apply elem_of_nil in Hin. }
  cbn [foldl]. apply elem_of_cons in Hin as [<-|Hin].
  - apply run_keeps_green. unfold Shader.main. rewrite Hst.
    rewrite Nat2Z.id. by apply list_lookup_insert_eq.
  - apply IH; [done..|]. by rewrite main_length.
Qed.

Lemma elem_of_invocations gx gy gid :
  gid ∈ Shader.invocations gx gy <->
  0 <= vx gid < gx * 16 /\ 0 <= vy gid < gy * 16 /\ vz gid = 0.
Proof.
  unfold Shader.invocations, Shader.workgroup_size. split.
  - intros H.
    apply list_elem_of_bind in H as (wy & H & Hwy%elem_of_seqZ).
    apply list_elem_of_bind in H as (wx & H & Hwx%elem_of_seqZ).
    apply list_elem_of_bind in H as (ly & H & Hly%elem_of_seqZ).
    apply list_elem_of_bind in H as (lx & H & Hlx%elem_of_seqZ).
    apply list_elem_of_singleton in H as ->. cbn. lia.
  - destruct gid as [x y z]. cbn. intros (Hx & Hy & ->).
    apply list_elem_of_bind. exists (y / 16). split; [|apply elem_of_seqZ].
    2: { split; [apply Z.div_pos; lia|].
         rewrite Z.add_0_l. apply Z.div_lt_upper_bound; lia. }
    apply list_elem_of_bind. exists (x / 16). split; [|apply elem_of_seqZ].
    2: { split; [apply Z.div_pos; lia|].
         rewrite Z.add_0_l. apply Z.div_lt_upper_bound; lia. }
    apply list_elem_of_bind. exists (y mod 16). split; [|apply elem_of_seqZ].
    2: { pose proof (Z.mod_pos_bound y 16). lia. }
    apply list_elem_of_bind. exists (x mod 16). split; [|apply elem_of_seqZ].
    2: { pose proof (Z.mod_pos_bound x 16). lia. }
    apply list_elem_of_singleton. f_equal.
    + pose proof (Z.div_mod x 16). lia.
    + pose proof (Z.div_mod y 16). lia.
Qed.

Hypothesis width_pos : 0 < width.
Hypothesis height_pos : 0 < height.

(** The invocation that owns texel [i]. *)
Lemma texel_covered (i : Z) :
  width * height < 2 ^ 32 ->
  0 <= i < width * height ->
  let gid := Vec3 (i mod width) (i / width) 0 in
  gid ∈ Shader.invocations (ceil_div width 16) (ceil_div height 16) /\
  Shader.main_store width height gid = Some (i, GREEN).
Proof.
  intros Hsmall Hi gid.
  pose proof (Z.mod_pos_bound i width width_pos) as Hx.
  pose proof (Z.div_mod i width ltac:(lia)) as Hdm.
  assert (0 <= i / width < height) as Hy.
  { split; [apply Z.div_pos; lia|]. apply Z.div_lt_upper_bound; lia. }
  split.
  - apply elem_of_invocations. cbn.
    pose proof (ceil_div_cover width 16). pose proof (ceil_div_cover height 16).
    lia.
  - unfold Shader.main_store, Shader.index_of. cbn [vx vy gid]. cbv zeta.
    assert (0 <= i / width * width <= i) by nia.
    rewrite (wrap32_small (i / width * width)) by lia.
    replace (i / width * width + i mod width) with i by lia.
    rewrite !wrap32_small by lia.
    destruct (Z.ltb_spec i (width * height)); [done|lia].
Qed.

(** The dispatch of [render] leaves every word of a buffer of
    [width * height] words green. *)
Lemma dispatch_fills order out :
  width * height < 2 ^ 32 ->
  (forall gid,
     gid ∈ Shader.invocations (ceil_div width 16) (ceil_div height 16) ->
     gid ∈ order) ->
  length out = Z.to_nat (width * height) ->
  Shader.run width height order out = replicate (Z.to_nat (width * height)) GREEN.
Proof.
  intros Hsmall Hall Hlen. apply list_eq. intros i.
  destruct (decide (i < Z.to_nat (width * height))%nat) as [Hi|Hi].
  - rewrite lookup_replicate_2 by done.
    destruct (texel_covered (Z.of_nat i) Hsmall ltac:(lia)) as [Hin Hst].
    eapply run_writes; [apply Hall, Hin|done|lia].
  - rewrite (proj1 (lookup_replicate_None _ _ _)) by lia.
    apply lookup_ge_None. rewrite run_length. lia.
Qed.

End ShaderFacts.

(** ** Bytes of a frame *)

Lemma word_bytes_GREEN : word_bytes GREEN = [0; 255; 0; 255].
Proof. reflexivity. Qed.

Lemma buffer_bytes_cons w ws :
  buffer_bytes (w :: ws) = word_bytes w ++ buffer_bytes ws.
Proof. reflexivity. Qed.

Lemma length_buffer_bytes ws : length (buffer_bytes ws) = (4 * length ws)%nat.
Proof.
  induction ws as [|w ws IH]; [done|].
  rewrite buffer_bytes_cons, length_app, IH. cbn [length word_bytes]. lia.
Qed.

Lemma texel_buffer_bytes ws (i : nat) w :
  ws !! i = Some w -> texel (buffer_bytes ws) i = word_bytes w.
Proof.
  unfold texel. revert i.
  induction ws as [|w0 ws IH]; intros i Hi; [done|].
  rewrite buffer_bytes_cons. destruct i as [|i].
  - injection Hi as ->. cbn [Nat.mul drop word_bytes app take]. done.
  - replace (4 * S i)%nat with (4 + 4 * i)%nat by lia.
    cbn [word_bytes app Nat.add drop]. by apply IH.
Qed.

Lemma nonZeroCount_greens (n : nat) :
  nonZeroCount (buffer_bytes (replicate n GREEN)) = 2 * Z.of_nat n.
Proof.
  unfold nonZeroCount. induction n as [|n IH]; [done|].
  cbn [replicate]. rewrite buffer_bytes_cons, word_bytes_GREEN.
  rewrite filter_app, length_app.
  change (length (filter (λ byte, byte ≠ 0) [0; 255; 0; 255])) with 2%nat.
  lia.
Qed.

Lemma firstNonZero_greens (n : nat) :
  (0 < n)%nat -> firstNonZero (buffer_bytes (replicate n GREEN)) = 1.
Proof. destruct n as [|n]; [lia|]. reflexivity. Qed.

Lemma byteLength_green_frame : byteLength green_frame = 1920000.
Proof.
  unfold byteLength, green_frame.
  rewrite length_buffer_bytes, length_replicate. lia.
Qed.

Lemma nonZeroCount_green_frame : nonZeroCount green_frame = 960000.
Proof. unfold green_frame. rewrite nonZeroCount_greens. lia. Qed.

Lemma firstNonZero_green_frame : firstNonZero green_frame = 1.
Proof. unfold green_frame. apply firstNonZero_greens. lia. Qed.

Lemma texel_green_frame (i : Z) :
  0 <= i < 800 * 600 ->
  texel green_frame (Z.to_nat i) = [0; 255; 0; 255].
Proof.
  intros Hi. unfold green_frame.
  rewrite (texel_buffer_bytes _ _ GREEN); [done|].
  apply lookup_replicate_2. lia.
Qed.

(** ** Device memory and the heap *)

Lemma length_zeroed size : length (zeroed size) = Z.to_nat (size / 4).
Proof. apply length_replicate. Qed.

Lemma copy_words_all size src dst :
  length src = Z.to_nat (size / 4) ->
  length dst = Z.to_nat (size / 4) ->
  copy_words size src dst = src.
Proof.
  intros Hs Hd. unfold copy_words.
  rewrite <- Hs at 1. rewrite firstn_all.
  rewrite drop_ge by lia. apply app_nil_r.
Qed.

Lemma alter_fresh {A} (f : A -> A) (l : list A) (x : A) :
  alter f (length l) (l ++ [x]) = l ++ [f x].
Proof. induction l as [|y l IH]; [done|]. cbn. f_equal. apply IH. Qed.

Lemma lookup_fresh {A} (l : list A) (x : A) : (l ++ [x]) !! length l = Some x.
Proof. induction l as [|y l IH]; [done|]. apply IH. Qed.

(** The frame the dispatch of [render] leaves in [renderBuffer]. *)
Lemma render_dispatch out :
  length out = Z.to_nat (800 * 600) ->
  Shader.dispatchWorkgroups 800 600 (ceil_div 800 16) (ceil_div 600 16) out
  = replicate (Z.to_nat (800 * 600)) GREEN.
Proof.
  intros Hlen. unfold Shader.dispatchWorkgroups.
  apply dispatch_fills; [lia | lia | lia | done | done].
Qed.

(** What the view of [update] shows while the staging buffer is mapped. *)
Lemma mapped_view rb (sbs : list GPUBuffer) (abs : list ArrayBuffer) :
  length rb = Z.to_nat (800 * 600) ->
  view_bytes
    (alter (set_mapState Mapped) (length sbs)
       (alter
          (fun b =>
             set_contents
               (copy_words (800 * 600 * 4)
                  (Shader.dispatchWorkgroups 800 600
                     (ceil_div 800 16) (ceil_div 600 16) rb)
                  (contents b)) b)
          (length sbs)
          (sbs ++ [{| contents := zeroed (800 * 600 * 4);
                      mapState := Unmapped |}])))
    (abs ++ [MappedRange (length sbs)])
    {| u8_buffer := length abs |}
  = green_frame.
Proof.
  intros Hlen. unfold view_bytes. cbn [u8_buffer].
  rewrite lookup_fresh, !alter_fresh, lookup_fresh.
  cbn [set_mapState set_contents contents].
  rewrite (render_dispatch rb Hlen).
  rewrite copy_words_all; [reflexivity| |].
  - rewrite length_replicate. f_equal.
  - apply length_zeroed.
Qed.

Lemma green_frame_fits : (byteLength green_frame <=? 800 * 600 * 4) = true.
Proof. rewrite byteLength_green_frame. reflexivity. Qed.

(** ** Running [update] *)

(** Unfolds a frame down to the platform calls, decides the comparisons of
    call sites, and runs it as far as the state allows. *)
Ltac run_frame :=
  cbv beta iota zeta delta
    [update render saveRenderedImage createBuffer submit mapAsync
     getMappedRange unmap read log logError bind ret try_catch throw get
     emit call modify with_frameCount with_renderBuffer with_stagingBuffers
     with_arrayBuffers execute for_each frameCount renderBuffer
     stagingBuffers arrayBuffers trace fault_stage fault_abort];
  repeat match goal with
    | |- context [bool_decide (@eq Stage ?a ?b)] =>
        let v := eval vm_compute in (bool_decide (a = b)) in
        change (bool_decide (a = b)) with v
    end;
  cbv beta iota.

(** Runs on with the bytes of the mapped view, [E : view_bytes .. = d],
    and the fact [F] that they fit the PNG. *)
Ltac run_view E F := rewrite ?E, ?F; cbv beta iota; rewrite ?E.

(** The constants of the source, evaluated. *)
Ltac eval_consts :=
  change (800 * 600 * 4) with 1920000 in *;
  change (800 * 4) with 3200 in *;
  change (ceil_div 800 16) with 50 in *;
  change (ceil_div 600 16) with 38 in *;
  change (0 `div` 4) with 0 in *; change (4 `div` 4) with 1 in *;
  change (8 `div` 4) with 2 in *; change (12 `div` 4) with 3 in *;
  change (16 `div` 4) with 4 in *;
  change (Z.to_nat 0) with 0%nat in *; change (Z.to_nat 4) with 4%nat in *;
  change (Z.to_nat 8) with 8%nat in *; change (Z.to_nat 12) with 12%nat in *;
  change (Z.to_nat 16) with 16%nat in *.

Lemma detach_fresh sb (abs : list ArrayBuffer) :
  detach sb <$> (abs ++ [MappedRange sb]) = (detach sb <$> abs) ++ [Detached].
Proof.
  rewrite fmap_app. f_equal. cbn [fmap list_fmap detach].
  by rewrite bool_decide_eq_true_2.
Qed.

Lemma staged_frame rb (sbs : list GPUBuffer) :
  length rb = Z.to_nat (800 * 600) ->
  alter (set_mapState Mapped) (length sbs)
    (alter
       (fun b =>
          set_contents
            (copy_words (800 * 600 * 4)
               (Shader.dispatchWorkgroups 800 600
                  (ceil_div 800 16) (ceil_div 600 16) rb)
               (contents b)) b)
       (length sbs)
       (sbs ++ [{| contents := zeroed (800 * 600 * 4);
                   mapState := Unmapped |}]))
  = sbs ++ [{| contents := replicate (Z.to_nat (800 * 600)) GREEN;
               mapState := Mapped |}].
Proof.
  intros Hlen. rewrite !alter_fresh.
  cbn [set_mapState set_contents contents mapState].
  rewrite (render_dispatch rb Hlen).
  rewrite copy_words_all; [reflexivity| |].
  - rewrite length_replicate. f_equal.
  - apply length_zeroed.
Qed.

(** A frame on which nothing throws, from any state that satisfies the
    invariant. *)
Lemma update_ok n rb sbs abs tr :
  length rb = Z.to_nat (800 * 600) ->
  update None
    {| frameCount := n; renderBuffer := rb; stagingBuffers := sbs;
       arrayBuffers := abs; trace := tr |}
  = (Ok tt,
     {| frameCount := n + 1;
        renderBuffer := replicate (Z.to_nat (800 * 600)) GREEN;
        stagingBuffers :=
          sbs ++ [{| contents := replicate (Z.to_nat (800 * 600)) GREEN;
                     mapState := Unmapped |}];
        arrayBuffers := (detach (length sbs) <$> abs) ++ [Detached];
        trace := tr ++ frame_effects n (length sbs) (length abs) green_frame |}).
Proof.
  intros Hlen. run_frame.
  run_view (mapped_view rb sbs abs Hlen) green_frame_fits.
  rewrite (staged_frame rb sbs Hlen), alter_fresh, detach_fresh.
  rewrite (render_dispatch rb Hlen).
  cbn [set_mapState contents]. eval_consts.
  rewrite <- !app_assoc. reflexivity.
Qed.

(** ** Structural facts about computations *)

Create HintDb prog discriminated.

Lemma stays_ret {A} (a : A) : stays (ret a).
Proof. intros w. exact I. Qed.

Lemma stays_throw {A} e : stays (@throw A e).
Proof. intros w. exact I. Qed.

Lemma stays_get {A} (f : World -> A) : stays (get f).
Proof. intros w. exact I. Qed.

Lemma stays_emit e : stays (emit e).
Proof. intros w. exact I. Qed.

Lemma stays_modify f : stays (modify f).
Proof. intros w. exact I. Qed.

Lemma stays_bind {A B} (m : M A) (k : A -> M B) :
  stays m -> (forall a, stays (k a)) -> stays (bind m k).
Proof.
  intros Hm Hk w. unfold bind. specialize (Hm w).
  destruct (m w) as [[a|e|c] w']; cbn in *; [apply Hk|done|done].
Qed.

Lemma stays_try_catch {A} (m : M A) (h : Error -> M A) :
  stays m -> (forall e, stays (h e)) -> stays (try_catch m h).
Proof.
  intros Hm Hh w. unfold try_catch. specialize (Hm w).
  destruct (m w) as [[a|e|c] w']; cbn in *; [done|apply Hh|done].
Qed.

Lemma stays_if {A} (b : bool) (m1 m2 : M A) :
  stays m1 -> stays m2 -> stays (if b then m1 else m2).
Proof. by destruct b. Qed.

Lemma stays_call plan s : stays (call plan s).
Proof.
  unfold call. destruct plan as [f|]; [|apply stays_ret].
  apply stays_if; [apply stays_throw|apply stays_ret].
Qed.

Lemma stays_for_each {A} (l : list A) (body : A -> M unit) :
  (forall x, stays (body x)) -> stays (for_each l body).
Proof.
  intros Hb. induction l as [|x l IH]; [apply stays_ret|].
  cbn [for_each]. apply stays_bind; [apply Hb|done].
Qed.

#[local] Hint Resolve stays_ret stays_throw stays_get stays_emit
  stays_modify stays_call : prog.
#[local] Hint Extern 2 (stays (bind _ _)) =>
  apply stays_bind; [|intros ?] : prog.
#[local] Hint Extern 2 (stays (try_catch _ _)) =>
  apply stays_try_catch; [|intros ?] : prog.
#[local] Hint Extern 2 (stays (for_each _ _)) =>
  apply stays_for_each; intros ? : prog.
#[local] Hint Extern 2 (stays (if _ then _ else _)) =>
  apply stays_if : prog.
#[local] Hint Extern 1 (stays (log _ _)) => apply stays_emit : prog.
#[local] Hint Extern 1 (stays (logError _ _)) => apply stays_emit : prog.
#[local] Hint Extern 1 (stays (read _)) => apply stays_get : prog.

Ltac prog_auto := auto 60 with prog nocore.

Lemma stays_render plan : stays (render plan).
Proof. unfold render, submit. prog_auto. Qed.

Lemma stays_saveRenderedImage plan data width height :
  stays (saveRenderedImage plan data width height).
Proof. unfold saveRenderedImage. prog_auto. Qed.

Lemma stays_update plan : stays (update plan).
Proof.
  pose proof stays_render. pose proof stays_saveRenderedImage.
  unfold update, createBuffer, submit, mapAsync, getMappedRange, unmap.
  prog_auto.
Qed.

Lemma completes_bind {A B} (m : M A) (k : A -> M B) :
  completes m -> (forall a, completes (k a)) -> completes (bind m k).
Proof.
  intros Hm Hk w. unfold bind. destruct (Hm w) as [a Ha].
  destruct (m w) as [r w']. cbn in Ha. subst r. apply Hk.
Qed.

Lemma completes_get {A} (f : World -> A) : completes (get f).
Proof. intros w. by eexists. Qed.

Lemma completes_emit e : completes (emit e).
Proof. intros w. by eexists. Qed.

(** A [try] whose handler completes, completes. *)
Lemma completes_try_catch {A} (m : M A) (h : Error -> M A) :
  stays m -> (forall e, completes (h e)) -> completes (try_catch m h).
Proof.
  intros Hm Hh w. unfold try_catch. specialize (Hm w).
  destruct (m w) as [[a|e|c] w']; cbn in *; [by eexists|apply Hh|done].
Qed.

(** [update] never throws and never ends the process: its [catch] takes
    every error. *)
Lemma update_completes plan : completes (update plan).
Proof.
  pose proof stays_render. pose proof stays_saveRenderedImage.
  unfold update.
  apply completes_bind; [apply completes_get|intros n].
  apply completes_bind; [apply completes_emit|intros _].
  apply completes_try_catch; [|intros e; apply completes_emit].
  unfold createBuffer, submit, mapAsync, getMappedRange, unmap. prog_auto.
Qed.

Lemma completes_result (m : M unit) w :
  completes m -> m w = (Ok tt, snd (m w)).
Proof.
  intros Hm. destruct (Hm w) as [[] Ha].
  destruct (m w) as [r w']. cbn in *. by subst.
Qed.

Lemma update_result plan w : update plan w = (Ok tt, snd (update plan w)).
Proof. apply completes_result, update_completes. Qed.

(** ** The invariant *)

Lemma keeps_wf_ret {A} (a : A) : keeps_wf (ret a).
Proof. intros w Hw. exact Hw. Qed.

Lemma keeps_wf_throw {A} e : keeps_wf (@throw A e).
Proof. intros w Hw. exact Hw. Qed.

Lemma keeps_wf_get {A} (f : World -> A) : keeps_wf (get f).
Proof. intros w Hw. exact Hw. Qed.

Lemma keeps_wf_emit e : keeps_wf (emit e).
Proof. intros w Hw. exact Hw. Qed.

Lemma keeps_wf_modify f :
  (forall w, length (renderBuffer (f w)) = length (renderBuffer w)) ->
  keeps_wf (modify f).
Proof. intros Hf w Hw. unfold wf, modify in *. cbn [snd]. by rewrite Hf. Qed.

Lemma keeps_wf_bind {A B} (m : M A) (k : A -> M B) :
  keeps_wf m -> (forall a, keeps_wf (k a)) -> keeps_wf (bind m k).
Proof.
  intros Hm Hk w Hw. unfold bind. specialize (Hm w Hw).
  destruct (m w) as [[a|e|c] w']; cbn in *; [by apply Hk|done|done].
Qed.

Lemma keeps_wf_try_catch {A} (m : M A) (h : Error -> M A) :
  keeps_wf m -> (forall e, keeps_wf (h e)) -> keeps_wf (try_catch m h).
Proof.
  intros Hm Hh w Hw. unfold try_catch. specialize (Hm w Hw).
  destruct (m w) as [[a|e|c] w']; cbn in *; [done|by apply Hh|done].
Qed.

Lemma keeps_wf_if {A} (b : bool) (m1 m2 : M A) :
  keeps_wf m1 -> keeps_wf m2 -> keeps_wf (if b then m1 else m2).
Proof. by destruct b. Qed.

Lemma keeps_wf_call plan s : keeps_wf (call plan s).
Proof.
  unfold call. destruct plan as [f|]; [|apply keeps_wf_ret].
  apply keeps_wf_if; [apply keeps_wf_throw|apply keeps_wf_ret].
Qed.

Lemma keeps_wf_for_each {A} (l : list A) (body : A -> M unit) :
  (forall x, keeps_wf (body x)) -> keeps_wf (for_each l body).
Proof.
  intros Hb. induction l as [|x l IH]; [apply keeps_wf_ret|].
  cbn [for_each]. apply keeps_wf_bind; [apply Hb|done].
Qed.

(** Whatever is submitted, [renderBuffer] keeps its size. *)
Lemma execute_length cmd w :
  length (renderBuffer (execute cmd w)) = length (renderBuffer w).
Proof.
  destruct cmd as [gx gy|dst size]; cbn [execute renderBuffer with_renderBuffer
    with_stagingBuffers]; [|done].
  unfold Shader.dispatchWorkgroups. apply run_length.
Qed.

#[local] Hint Resolve keeps_wf_ret keeps_wf_throw keeps_wf_get keeps_wf_emit
  keeps_wf_call : prog.
#[local] Hint Extern 2 (keeps_wf (bind _ _)) =>
  apply keeps_wf_bind; [|intros ?] : prog.
#[local] Hint Extern 2 (keeps_wf (try_catch _ _)) =>
  apply keeps_wf_try_catch; [|intros ?] : prog.
#[local] Hint Extern 2 (keeps_wf (for_each _ _)) =>
  apply keeps_wf_for_each; intros ? : prog.
#[local] Hint Extern 2 (keeps_wf (if _ then _ else _)) =>
  apply keeps_wf_if : prog.
#[local] Hint Extern 1 (keeps_wf (log _ _)) => apply keeps_wf_emit : prog.
#[local] Hint Extern 1 (keeps_wf (logError _ _)) => apply keeps_wf_emit : prog.
#[local] Hint Extern 1 (keeps_wf (read _)) => apply keeps_wf_get : prog.
#[local] Hint Extern 1 (keeps_wf (modify (execute _))) =>
  apply keeps_wf_modify, execute_length : prog.
#[local] Hint Extern 3 (keeps_wf (modify _)) =>
  apply keeps_wf_modify; intros ?; reflexivity : prog.

Lemma keeps_wf_render plan : keeps_wf (render plan).
Proof. unfold render, submit. prog_auto. Qed.

Lemma keeps_wf_saveRenderedImage plan data width height :
  keeps_wf (saveRenderedImage plan data width height).
Proof. unfold saveRenderedImage. prog_auto. Qed.

(** A frame keeps the invariant, whether or not it fails part-way. *)
Lemma keeps_wf_update plan : keeps_wf (update plan).
Proof.
  pose proof keeps_wf_render. pose proof keeps_wf_saveRenderedImage.
  unfold update, createBuffer, submit, mapAsync, getMappedRange, unmap.
  prog_auto.
Qed.

Lemma wf_started : wf started.
Proof.
  unfold wf, started.
  cbv beta iota zeta delta
    [getDevice constructor init healthy startup_call adapter startup_fault
     log bind ret emit modify with_frameCount with_renderBuffer boot snd
     frameCount renderBuffer stagingBuffers arrayBuffers trace].
  rewrite length_zeroed. f_equal.
Qed.

(** ** Observations on traces *)

Lemma count_effects_app p t1 t2 :
  count_effects p (t1 ++ t2) = (count_effects p t1 + count_effects p t2)%nat.
Proof. unfold count_effects. by rewrite filter_app, length_app. Qed.

Lemma count_effects_snoc p t e :
  count_effects p (t ++ [e])
  = (count_effects p t + if p e then 1 else 0)%nat.
Proof.
  rewrite count_effects_app. f_equal. unfold count_effects.
  destruct (p e) eqn:He.
  - rewrite filter_cons_True by done. done.
  - rewrite filter_cons_False by (rewrite He; done). done.
Qed.

Lemma snapshots_app t1 t2 : snapshots (t1 ++ t2) = snapshots t1 ++ snapshots t2.
Proof. apply omap_app. Qed.

Lemma steps_app t1 t2 : steps (t1 ++ t2) = steps t1 ++ steps t2.
Proof. apply omap_app. Qed.

Lemma snapshots_frame n sb ab d : snapshots (frame_effects n sb ab d) = [d].
Proof. reflexivity. Qed.

Lemma encoded_frame n sb ab d : encoded (frame_effects n sb ab d) = [d].
Proof. reflexivity. Qed.

Lemma steps_frame n sb ab d :
  steps (frame_effects n sb ab d)
  = [StepRender; StepPull; StepEncode; StepPresent].
Proof. reflexivity. Qed.

(** ** Frames that fail *)

Lemma wf_length w : wf w -> length (renderBuffer w) = Z.to_nat (800 * 600).
Proof. done. Qed.

(** The error of a failed frame is the last thing the frame logs. *)
Lemma update_fault_logged f w :
  wf w ->
  last (trace (snd (update (Some f) w)))
  = Some (LogError "Error during update:"
            (Err (InFrame (fault_stage f)) (fault_abort f))).
Proof.
  intros Hlen. destruct w as [n rb sbs abs tr]. apply wf_length in Hlen.
  cbn [renderBuffer] in Hlen.
  destruct f as [s a]; destruct s; run_frame;
    run_view (mapped_view rb sbs abs Hlen) green_frame_fits;
    cbn [snd trace fault_stage fault_abort]; apply last_snoc.
Qed.

(** The counter moves at the end of [render], and nowhere else. *)
Lemma update_fault_frameCount f w :
  wf w ->
  frameCount (snd (update (Some f) w))
  = if in_render (fault_stage f) then frameCount w else frameCount w + 1.
Proof.
  intros Hlen. destruct w as [n rb sbs abs tr]. apply wf_length in Hlen.
  cbn [renderBuffer] in Hlen.
  destruct f as [s a]; destruct s; run_frame;
    run_view (mapped_view rb sbs abs Hlen) green_frame_fits;
    reflexivity.
Qed.

(** A frame that fails while the staging buffer is mapped leaves it
    mapped: [unmap] is never reached.  Past [getMappedRange], the
    [ArrayBuffer] of the frame is still a window on the buffer. *)
Lemma update_fault_mapped f w :
  wf w ->
  while_mapped (fault_stage f) = true ->
  stagingBuffers (snd (update (Some f) w))
  = stagingBuffers w
    ++ [{| contents := replicate (Z.to_nat (800 * 600)) GREEN;
           mapState := Mapped |}]
  /\ count_effects is_unmap (trace (snd (update (Some f) w)))
     = count_effects is_unmap (trace w)
  /\ (fault_stage f <> SMappedRange ->
      arrayBuffers (snd (update (Some f) w))
      = arrayBuffers w ++ [MappedRange (length (stagingBuffers w))]).
Proof.
  intros Hlen. destruct w as [n rb sbs abs tr]. apply wf_length in Hlen.
  cbn [renderBuffer] in Hlen.
  destruct f as [s a]; destruct s; try discriminate; intros _; run_frame;
    run_view (mapped_view rb sbs abs Hlen) green_frame_fits;
    cbn [snd stagingBuffers arrayBuffers trace fault_stage];
    (split; [apply (staged_frame rb sbs Hlen)|]);
    (split; [rewrite !count_effects_snoc; cbv beta iota delta [is_unmap]; lia|]);
    intros Hne; first [by destruct Hne | reflexivity].
Qed.

(** ** One pass through the loop body *)

Ltac run_iteration :=
  cbv beta iota zeta delta
    [iteration events_next plan_of logEvent log logError bind ret try_catch
     throw emit isAbortError tick_next tick_plan after frameCount
     renderBuffer stagingBuffers arrayBuffers trace].

Lemma iteration_done w :
  iteration None w = (Ok Break, after w [Log "Event stream closed" []]).
Proof. reflexivity. Qed.

Lemma iteration_quit t w :
  tick_next t = Yields Quit ->
  iteration (Some t) w
  = (Ok Return,
     after w [Log "Received event:" []; Log "Quit event received" []]).
Proof.
  intros Ht. destruct t as [nx plan]. cbn [tick_next] in Ht. subst nx.
  run_iteration. by rewrite <- app_assoc.
Qed.

Lemma iteration_draw t w :
  tick_next t = Yields Draw ->
  iteration (Some t) w
  = (Ok Continue,
     snd (update (tick_plan t)
            (after w [Log "Received event:" []; Log "Draw event received" []]))).
Proof.
  intros Ht. destruct t as [nx plan]. cbn [tick_next] in Ht. subst nx.
  run_iteration. rewrite <- app_assoc. cbn [app].
  rewrite update_result. reflexivity.
Qed.

Lemma iteration_abort t w :
  tick_next t = Rejects true ->
  iteration (Some t) w
  = (Ok Break,
     after w [LogError "Error in event loop:" (Err InNext true);
              Log "Event stream aborted" []]).
Proof.
  intros Ht. destruct t as [nx plan]. cbn [tick_next] in Ht. subst nx.
  run_iteration. by rewrite <- app_assoc.
Qed.

Lemma wf_after w es : wf w -> wf (after w es).
Proof. done. Qed.

(** A turn that is neither [Quit] nor an abort leaves the loop running and
    the invariant in place. *)
Lemma iteration_goes_on t w :
  goes_on t = true ->
  exists w', iteration (Some t) w = (Ok Continue, w') /\ (wf w -> wf w').
Proof.
  destruct t as [[[| | | |code]|[|]] plan]; unfold goes_on; cbn [tick_next negb];
    try discriminate; intros _.
  - eexists. split; [by apply iteration_draw|].
    intros Hw. apply keeps_wf_update. by apply wf_after.
  - run_iteration. eexists. split; [reflexivity|done].
  - run_iteration. eexists. split; [reflexivity|done].
  - run_iteration. eexists. split; [reflexivity|done].
  - run_iteration. eexists. split; [reflexivity|done].
Qed.

(** Every pass ends normally, with [Continue], [Break] or [Return]: the
    [catch] of the loop body takes what [next()] throws. *)
Lemma iteration_completes t : completes (iteration t).
Proof.
  intros w. destruct t as [t|]; [|rewrite iteration_done; by eexists].
  destruct (goes_on t) eqn:Hgo.
  - destruct (iteration_goes_on t w Hgo) as (w' & -> & _). by eexists.
  - destruct t as [[[| | | |code]|[|]] plan]; try discriminate.
    + rewrite iteration_quit by done. by eexists.
    + rewrite iteration_abort by done. by eexists.
Qed.

(** ** The loop *)

Lemma loop_from_cons t rest w :
  loop_from (t :: rest) w
  = match iteration (Some t) w with
    | (Ok Continue, w') => loop_from rest w'
    | (Ok c, w') => (Ok (c, rest), w')
    | (Throw e, w') => (Throw e, w')
    | (Exited code, w') => (Exited code, w')
    end.
Proof.
  cbn [loop_from]. unfold bind.
  destruct (iteration (Some t) w) as [[[| |]|e|code] w']; reflexivity.
Qed.

(** Turns that go on are consumed one by one, whatever follows them. *)
Lemma loop_from_goes_on pre w :
  forallb goes_on pre = true ->
  exists w',
    (forall rest, loop_from (pre ++ rest) w = loop_from rest w') /\
    (wf w -> wf w').
Proof.
  revert w. induction pre as [|t pre IH]; intros w Hpre.
  { exists w. done. }
  cbn [forallb] in Hpre. apply andb_prop in Hpre as [Ht Hpre].
  destruct (iteration_goes_on t w Ht) as (w1 & Hit & Hwf1).
  destruct (IH w1 Hpre) as (w2 & Hloop & Hwf2).
  exists w2. split; [|tauto].
  intros rest. cbn [app]. rewrite loop_from_cons, Hit. apply Hloop.
Qed.

Lemma loop_from_completes stream : completes (loop_from stream).
Proof.
  induction stream as [|t rest IH]; intros w.
  - cbn [loop_from]. unfold bind. rewrite iteration_done. by eexists.
  - rewrite loop_from_cons.
    destruct (iteration_completes (Some t) w) as [c Hc].
    destruct (iteration (Some t) w) as [r w']. cbn [fst] in Hc. subst r.
    destruct c; [apply IH|by eexists|by eexists].
Qed.

(** The loop never throws and never ends the process. *)
Lemma loop_completes stream : completes (loop stream).
Proof.
  intros w. unfold loop, bind, log, emit.
  match goal with |- context [loop_from stream ?w0] =>
    destruct (loop_from_completes stream w0) as [[c r] Hc];
    destruct (loop_from stream w0) as [res w'] end.
  cbn [fst] in Hc. subst res. cbn [fst snd]. destruct c; by eexists.
Qed.

Lemma stays_loop stream : stays (loop stream).
Proof.
  intros w. destruct (loop_completes stream w) as [c Hc]. by rewrite Hc.
Qed.

(** ** Start-up *)

Lemma stays_startup_call env s : stays (startup_call env s).
Proof.
  unfold startup_call. destruct (startup_fault env) as [[s' a]|]; prog_auto.
Qed.

Lemma stays_getDevice env : stays (getDevice env).
Proof.
  pose proof stays_startup_call.
  unfold getDevice. destruct (adapter env); prog_auto.
Qed.

Lemma stays_constructor env : stays (constructor env).
Proof. pose proof stays_startup_call. unfold constructor. prog_auto. Qed.

Lemma started_eq :
  started
  = {| frameCount := 0;
       renderBuffer := zeroed (800 * 600 * 4);
       stagingBuffers := [];
       arrayBuffers := [];
       trace :=
         [ Log "Requesting WebGPU adapter" []; RequestAdapter;
           Log "Requesting WebGPU device" []; RequestDevice;
           Log "WebGPU device created" [];
           BuildWindow 800 600;
           Log "SimpleRenderer constructed" [];
           CreateBuffer (800 * 600 * 4) [STORAGE; COPY_SRC];
           Log "Initializing SimpleRenderer" [] ] |}.
Proof. reflexivity. Qed.

(** ** [render] alone *)

Lemma render_ok w :
  render None w
  = (Ok tt,
     {| frameCount := frameCount w + 1;
        renderBuffer :=
          Shader.dispatchWorkgroups 800 600 50 38 (renderBuffer w);
        stagingBuffers := stagingBuffers w;
        arrayBuffers := arrayBuffers w;
        trace := trace w ++ render_effects (frameCount w) |}).
Proof.
  destruct w as [n rb sbs abs tr]. run_frame. eval_consts.
  rewrite <- !app_assoc. reflexivity.
Qed.

Lemma render_dispatch_50_38 out :
  length out = Z.to_nat (800 * 600) ->
  Shader.dispatchWorkgroups 800 600 50 38 out
  = replicate (Z.to_nat (800 * 600)) GREEN.
Proof. exact (render_dispatch out). Qed.

Lemma renders_S k w : renders (S k) w = snd (render None (renders k w)).
Proof. reflexivity. Qed.

Lemma frames_S k w : frames (S k) w = snd (update None (frames k w)).
Proof. reflexivity. Qed.

Lemma wf_frames k w : wf w -> wf (frames k w).
Proof.
  intros Hw. induction k as [|k IH]; [done|].
  rewrite frames_S. by apply keeps_wf_update.
Qed.

(** A frame on which nothing throws, for a world given as a whole. *)
Lemma update_ok_world w :
  wf w ->
  update None w
  = (Ok tt,
     {| frameCount := frameCount w + 1;
        renderBuffer := replicate (Z.to_nat (800 * 600)) GREEN;
        stagingBuffers :=
          stagingBuffers w
          ++ [{| contents := replicate (Z.to_nat (800 * 600)) GREEN;
                 mapState := Unmapped |}];
        arrayBuffers :=
          (detach (length (stagingBuffers w)) <$> arrayBuffers w) ++ [Detached];
        trace :=
          trace w
          ++ frame_effects (frameCount w) (length (stagingBuffers w))
               (length (arrayBuffers w)) green_frame |}).
Proof.
  intros Hw. destruct w as [n rb sbs abs tr]. by apply update_ok.
Qed.

(** ** The top level *)

(** The body of the top-level [try] never ends the process by itself. *)
Lemma stays_main_body env stream :
  stays (getDevice env ;; constructor env ;; init ;; loop stream ;;
         log "Application finished normally" []).
Proof.
  pose proof stays_getDevice. pose proof stays_constructor.
  pose proof stays_loop. unfold init. prog_auto.
Qed.

(** Whatever start-up and the loop do, control reaches the [finally],
    which ends the process. *)
Lemma main_reaches_exit env stream w :
  exists w1,
    main env stream w
    = (Exited 0, after w1 [Log "Cleaning up..." []; DenoExit 0]).
Proof.
  unfold main.
  pose proof (completes_try_catch _
    (fun error => logError "Fatal error:" error)
    (stays_main_body env stream)
    (fun e => completes_emit _)) as Htry.
  unfold bind at 1. cbn [log emit]. unfold try_finally.
  match goal with |- context [try_catch ?b ?h ?w0] =>
    destruct (Htry w0) as [[] Ha];
    destruct (try_catch b h w0) as [r w1] end.
  cbn [fst] in Ha. subst r. exists w1.
  cbv beta iota zeta delta [bind log emit exit after frameCount renderBuffer
    stagingBuffers arrayBuffers trace].
  by rewrite <- app_assoc.
Qed.

(** With no adapter, start-up fails and the failure is reported. *)
Lemma main_no_adapter stream w :
  main {| adapter := AdapterNull; startup_fault := None |} stream w
  = (Exited 0,
     after w [ Log "Starting application" [];
               Log "Requesting WebGPU adapter" []; RequestAdapter;
               LogError "Fatal error:" (Err NoAdapter false);
               Log "Cleaning up..." []; DenoExit 0 ]).
Proof.
  lazy beta iota zeta delta
    [main getDevice startup_call adapter startup_fault try_finally try_catch
     bind ret throw log logError emit exit after frameCount renderBuffer
     stagingBuffers arrayBuffers trace].
  by rewrite <- !app_assoc.
Qed.

(** Each [render] call builds its own layout, shader module and pipeline. *)
Lemma renders_count (p : Effect -> bool) (c : nat) k w :
  (forall n, count_effects p (render_effects n) = c) ->
  count_effects p (trace (renders k w))
  = (count_effects p (trace w) + k * c)%nat.
Proof.
  intros Hc. induction k as [|k IH]; [cbn; lia|].
  rewrite renders_S, render_ok. cbn [snd trace].
  rewrite count_effects_app, IH, Hc. lia.
Qed.

(** * The claims *)

(** ** The shader's bounds guard *)

(** The grid of [render] overhangs the frame: 600 is not a multiple of
    16, and the invocations of rows 600 to 607 are in the dispatch and
    store nothing. *)
Lemma render_grid_overhangs (x y : Z) :
  0 <= x < 800 -> 600 <= y < 608 ->
  Vec3 x y 0 ∈ Shader.invocations (ceil_div 800 16) (ceil_div 600 16) /\
  Shader.main_store 800 600 (Vec3 x y 0) = None.
Proof.
  intros Hx Hy. split.
  - apply elem_of_invocations. cbn [vx vy vz].
    change (ceil_div 800 16) with 50. change (ceil_div 600 16) with 38. lia.
  - apply main_store_None. unfold Shader.index_of. cbn [vx vy].
    rewrite (wrap32_small (y * 800)) by lia.
    rewrite !wrap32_small by lia. lia.
Qed.

(** C2.  For every invocation of the shader, whatever its
    [global_invocation_id], a store to the output buffer happens only at
    an index below [width * height], hence inside a buffer of
    [width * height] words; an invocation whose index is at or beyond
    [width * height] stores nothing and leaves the buffer as it is.  The
    index is the linear index [y * width + x] whenever that does not
    overflow a [u32].  Nothing is assumed on [width] and [height] being
    multiples of the workgroup size 16, and a dispatch never changes the
    size of the buffer. *)
Theorem shader_store_guarded (width height : Z) (gid : vec3u) (output : list Z) :
  0 < width -> 0 < height ->
  (forall index value,
     Shader.main_store width height gid = Some (index, value) ->
     index = Shader.index_of width gid /\ 0 <= index < width * height /\
     (length output = Z.to_nat (width * height) ->
      (Z.to_nat index < length output)%nat)) /\
  (width * height <= Shader.index_of width gid ->
     Shader.main_store width height gid = None /\
     Shader.main width height gid output = output) /\
  (0 <= vx gid -> 0 <= vy gid -> vy gid * width + vx gid < 2 ^ 32 ->
     Shader.index_of width gid = vy gid * width + vx gid) /\
  (forall gx gy,
     length (Shader.dispatchWorkgroups width height gx gy output)
     = length output).
Proof.
  intros Hw Hh.
  pose proof (wrap32_le (width * height) ltac:(nia)) as Hwrap.
  split; [|split; [|split]].
  - intros index value Hst.
    apply main_store_Some in Hst as (-> & _ & Hlt).
    split; [reflexivity|]. split; [lia|]. intros Hlen. rewrite Hlen. lia.
  - intros Hge. split.
    + apply main_store_None. lia.
    + unfold Shader.main. rewrite main_store_None; [reflexivity|lia].
  - intros Hx Hy Hsmall. unfold Shader.index_of.
    assert (0 <= vy gid * width) by nia.
    rewrite (wrap32_small (vy gid * width)) by lia.
    apply wrap32_small. lia.
  - intros gx gy. unfold Shader.dispatchWorkgroups. apply run_length.
Qed.

(** The guard at work on an 801 x 601 frame, at the far corner of its
    grid of 51 x 38 workgroups. *)
Lemma shader_store_guarded_witness :
  0 < 801 /\ 0 < 601 /\
  Shader.main_store 801 601 (Vec3 815 607 0) = None /\
  Shader.main 801 601 (Vec3 815 607 0) (replicate (Z.to_nat (801 * 601)) 0)
  = replicate (Z.to_nat (801 * 601)) 0.
Proof.
  split; [lia|]. split; [lia|].
  destruct (shader_store_guarded 801 601 (Vec3 815 607 0)
              (replicate (Z.to_nat (801 * 601)) 0)) as (_ & Hnoop & _);
    [lia | lia |].
  apply Hnoop. vm_compute. discriminate.
Defined.

(** ** The frame *)

(** C1, as stated, fails: the first frame drawn after start-up is shown to
    the window, and it does not have 1,920,000 non-zero bytes with the
    first of them at index 0. *)
Lemma green_snapshot_counterexample :
  ~ (forall d,
       d ∈ snapshots (trace (snd (update None started))) ->
       byteLength d = 1920000 /\ nonZeroCount d = 1920000 /\
       firstNonZero d = 0).
Proof.
  intros Hclaim. specialize (Hclaim green_frame).
  rewrite (update_ok_world started wf_started) in Hclaim.
  cbn [snd trace] in Hclaim. rewrite snapshots_app, snapshots_frame in Hclaim.
  destruct Hclaim as (_ & _ & Hfirst).
  { apply elem_of_app. right. by apply list_elem_of_singleton. }
  rewrite firstNonZero_green_frame in Hfirst. discriminate Hfirst.
Qed.

(** C1, amended.  From any state of the renderer, a frame on which
    nothing throws hands the window one snapshot of 1,920,000 bytes in
    which every texel is the bytes 00 FF 00 FF, that is the [u32]
    0xFF00FF00; it has 960,000 non-zero bytes, the first at index 1, and
    these are the figures the frame logs. *)
Theorem green_snapshot (w : World) :
  wf w ->
  snapshots (trace (snd (update None w)))
  = snapshots (trace w) ++ [green_frame] /\
  byteLength green_frame = 1920000 /\
  (forall i, 0 <= i < 800 * 600 ->
     texel green_frame (Z.to_nat i) = [0; 255; 0; 255] /\
     word_of_bytes (texel green_frame (Z.to_nat i)) = GREEN) /\
  nonZeroCount green_frame = 960000 /\
  firstNonZero green_frame = 1 /\
  Log "Total bytes:" [1920000] ∈ trace (snd (update None w)) /\
  Log "Non-zero bytes:" [960000] ∈ trace (snd (update None w)) /\
  Log "First non-zero byte index:" [1] ∈ trace (snd (update None w)).
Proof.
  intros Hw. rewrite (update_ok_world w Hw). cbn [snd trace].
  rewrite snapshots_app, snapshots_frame.
  split; [done|]. split; [apply byteLength_green_frame|].
  split. { intros i Hi. rewrite (texel_green_frame i Hi). done. }
  split; [apply nonZeroCount_green_frame|].
  split; [apply firstNonZero_green_frame|].
  unfold frame_effects.
  rewrite byteLength_green_frame, nonZeroCount_green_frame,
    firstNonZero_green_frame.
  repeat split; apply elem_of_app; right;
    apply list_elem_of_In; cbn [In]; tauto.
Qed.

Lemma green_snapshot_witness :
  wf started /\
  snapshots (trace (snd (update None started)))
  = snapshots (trace started) ++ [green_frame] /\
  byteLength green_frame = 1920000 /\
  (forall i, 0 <= i < 800 * 600 ->
     texel green_frame (Z.to_nat i) = [0; 255; 0; 255] /\
     word_of_bytes (texel green_frame (Z.to_nat i)) = GREEN) /\
  nonZeroCount green_frame = 960000 /\
  firstNonZero green_frame = 1 /\
  Log "Total bytes:" [1920000] ∈ trace (snd (update None started)) /\
  Log "Non-zero bytes:" [960000] ∈ trace (snd (update None started)) /\
  Log "First non-zero byte index:" [1] ∈ trace (snd (update None started)).
Proof. split; [exact wf_started | exact (green_snapshot started wf_started)]. Defined.

(** C3.  Two update cycles in a row, with nothing else happening in
    between, hand over two snapshots that are equal byte for byte; and a
    second [render] without a readback in between leaves in the output
    buffer what the first left. *)
Theorem repeated_cycle_same_snapshot (w : World) :
  wf w ->
  (exists d1 d2,
     snapshots (trace (frames 2 w)) = snapshots (trace w) ++ [d1; d2] /\
     d1 = d2) /\
  renderBuffer (renders 2 w) = renderBuffer (renders 1 w).
Proof.
  intros Hw. split.
  - exists green_frame, green_frame. split; [|done].
    rewrite frames_S, (update_ok_world _ (wf_frames 1 w Hw)). cbn [snd trace].
    rewrite frames_S, (update_ok_world _ (wf_frames 0 w Hw)). cbn [snd trace].
    rewrite !snapshots_app, !snapshots_frame, <- app_assoc. done.
  - rewrite !renders_S. change (renders 0 w) with w.
    rewrite !render_ok. cbn [snd renderBuffer].
    rewrite (render_dispatch_50_38 (renderBuffer w) Hw).
    apply render_dispatch_50_38, length_replicate.
Qed.

Lemma repeated_cycle_same_snapshot_witness :
  wf started /\
  (exists d1 d2,
     snapshots (trace (frames 2 started))
     = snapshots (trace started) ++ [d1; d2] /\
     d1 = d2) /\
  renderBuffer (renders 2 started) = renderBuffer (renders 1 started).
Proof.
  split; [exact wf_started | exact (repeated_cycle_same_snapshot started wf_started)].
Defined.

(** ** The pipeline objects *)

(** C4, as stated, fails: after two calls of [render] from start-up, the
    device has been asked for a compute pipeline twice, not once. *)
Lemma pipeline_reuse_counterexample :
  count_effects is_pipeline (trace (renders 2 started)) <> 1%nat.
Proof.
  rewrite (renders_count is_pipeline 1) by reflexivity.
  rewrite started_eq. cbn [trace]. discriminate.
Qed.

(** One call of [render], object by object: each is created unless the
    call throws at or before the site that creates it. *)
Lemma render_builds plan w :
  count_effects is_bind_group_layout (trace (snd (render plan w)))
  = (count_effects is_bind_group_layout (trace w)
     + if stops_by SBindGroupLayout plan then 0 else 1)%nat /\
  count_effects is_pipeline_layout (trace (snd (render plan w)))
  = (count_effects is_pipeline_layout (trace w)
     + if stops_by SPipelineLayout plan then 0 else 1)%nat /\
  count_effects is_shader_module (trace (snd (render plan w)))
  = (count_effects is_shader_module (trace w)
     + if stops_by SShaderModule plan then 0 else 1)%nat /\
  count_effects is_pipeline (trace (snd (render plan w)))
  = (count_effects is_pipeline (trace w)
     + if stops_by SComputePipeline plan then 0 else 1)%nat /\
  count_effects is_output_buffer (trace (snd (render plan w)))
  = count_effects is_output_buffer (trace w).
Proof.
  destruct w as [n rb sbs abs tr].
  destruct plan as [[s a]|]; [destruct s|]; run_frame; cbn [snd trace];
    rewrite !count_effects_snoc;
    cbv beta iota delta [is_bind_group_layout is_pipeline_layout
      is_shader_module is_pipeline is_output_buffer stops_by site_rank
      Nat.leb fault_stage];
    repeat split; lia.
Qed.

(** C4, amended.  No pipeline object is kept from one frame to the next:
    every call of [render] creates a bind group layout, a pipeline layout,
    a shader module and a compute pipeline of its own, each of them
    unless the call throws at or before the site that creates it, so [k]
    calls on which nothing throws create [k] of each.  The output buffer
    alone is created once, by the constructor, and no call of [render],
    failing or not, creates another. *)
Theorem pipeline_built_per_render (plan : option Fault) (k : nat) (w : World) :
  (count_effects is_bind_group_layout (trace (snd (render plan w)))
   = (count_effects is_bind_group_layout (trace w)
      + if stops_by SBindGroupLayout plan then 0 else 1)%nat /\
   count_effects is_pipeline_layout (trace (snd (render plan w)))
   = (count_effects is_pipeline_layout (trace w)
      + if stops_by SPipelineLayout plan then 0 else 1)%nat /\
   count_effects is_shader_module (trace (snd (render plan w)))
   = (count_effects is_shader_module (trace w)
      + if stops_by SShaderModule plan then 0 else 1)%nat /\
   count_effects is_pipeline (trace (snd (render plan w)))
   = (count_effects is_pipeline (trace w)
      + if stops_by SComputePipeline plan then 0 else 1)%nat /\
   count_effects is_output_buffer (trace (snd (render plan w)))
   = count_effects is_output_buffer (trace w)) /\
  (count_effects is_bind_group_layout (trace (renders k w))
   = (count_effects is_bind_group_layout (trace w) + k)%nat /\
   count_effects is_pipeline_layout (trace (renders k w))
   = (count_effects is_pipeline_layout (trace w) + k)%nat /\
   count_effects is_shader_module (trace (renders k w))
   = (count_effects is_shader_module (trace w) + k)%nat /\
   count_effects is_pipeline (trace (renders k w))
   = (count_effects is_pipeline (trace w) + k)%nat /\
   count_effects is_output_buffer (trace (renders k w))
   = count_effects is_output_buffer (trace w)) /\
  count_effects is_output_buffer (trace started) = 1%nat.
Proof.
  split; [exact (render_builds plan w)|].
  rewrite (renders_count is_bind_group_layout 1) by reflexivity.
  rewrite (renders_count is_pipeline_layout 1) by reflexivity.
  rewrite (renders_count is_shader_module 1) by reflexivity.
  rewrite (renders_count is_pipeline 1) by reflexivity.
  rewrite (renders_count is_output_buffer 0) by reflexivity.
  rewrite started_eq. cbn [trace].
  split; [|reflexivity].
  split; [lia|]. split; [lia|]. split; [lia|]. split; [lia|]. lia.
Qed.

(** ** The snapshot and the mapped memory *)

(** The state in which [unmap] is called, for any frame: the range the
    frame has mapped is its one new [ArrayBuffer], and the view on it
    reads the mapped memory of the frame's staging buffer. *)
Lemma mapped_at_unmap abort w :
  wf w ->
  let at_unmap :=
    snd (update (Some {| fault_stage := SUnmap; fault_abort := abort |}) w) in
  arrayBuffers at_unmap
  = arrayBuffers w ++ [MappedRange (length (stagingBuffers w))] /\
  on_mapped_memory at_unmap {| u8_buffer := length (arrayBuffers w) |} = true /\
  view_bytes (stagingBuffers at_unmap) (arrayBuffers at_unmap)
    {| u8_buffer := length (arrayBuffers w) |}
  = green_frame.
Proof.
  intros Hw at_unmap. subst at_unmap.
  destruct (update_fault_mapped
              {| fault_stage := SUnmap; fault_abort := abort |} w Hw eq_refl)
    as (Hbufs & _ & Hheap).
  specialize (Hheap ltac:(discriminate)).
  split; [exact Hheap|].
  unfold on_mapped_memory, view_bytes. rewrite Hheap, Hbufs.
  cbn [u8_buffer]. rewrite !lookup_fresh. cbn [mapState contents].
  split; reflexivity.
Qed.

(** The effects of a frame, split at [unmap]. *)
Lemma frame_effects_split n sb ab d :
  frame_effects n sb ab d
  = take 35 (frame_effects n sb ab d)
    ++ [Unmap sb; Log "Frame updated successfully" []] /\
  count_effects is_unmap (take 35 (frame_effects n sb ab d)) = 0%nat /\
  take 35 (frame_effects n sb ab d) !! 14%nat = Some (GetMappedRange sb ab) /\
  take 35 (frame_effects n sb ab d) !! 16%nat
  = Some (Log "Total bytes:" [byteLength d]) /\
  take 35 (frame_effects n sb ab d) !! 17%nat
  = Some (Log "Non-zero bytes:" [nonZeroCount d]) /\
  take 35 (frame_effects n sb ab d) !! 18%nat
  = Some (Log "First non-zero byte index:" [firstNonZero d]) /\
  take 35 (frame_effects n sb ab d) !! 28%nat = Some (PngWrite d 800 600) /\
  take 35 (frame_effects n sb ab d) !! 31%nat = Some (TextureUpdate d 3200) /\
  take 35 (frame_effects n sb ab d) !! 34%nat = Some CanvasPresent.
Proof. repeat split. Qed.

(** C5, as stated, fails: when the first frame after start-up calls
    [unmap], the view its snapshot is read through (the one on
    [ArrayBuffer] 0, the only one the frame has made) is not detached
    from mapped memory: it is a window on the staging buffer, which is
    still mapped.  Nothing has been copied out. *)
Lemma snapshot_detached_counterexample :
  ~ (on_mapped_memory
       (snd (update (Some {| fault_stage := SUnmap; fault_abort := false |})
               started))
       {| u8_buffer := 0 |}
     = false).
Proof.
  destruct (mapped_at_unmap false started wf_started) as (_ & Hmapped & _).
  assert (length (arrayBuffers started) = 0%nat) as Hzero
    by (rewrite started_eq; reflexivity).
  rewrite Hzero in Hmapped. rewrite Hmapped. discriminate.
Qed.

(** C5, amended.  The snapshot of a frame is not copied out of the
    mapped staging buffer: it is a view on the range that
    [getMappedRange] returns, the one [ArrayBuffer] the frame creates, and
    when [unmap] is called it still reads the mapped memory, which holds
    the frame.  Every reader of the snapshot (the three diagnostics, the
    image encoder, the upload to the window texture, followed by the
    present) comes between [getMappedRange] and [unmap]; after [unmap]
    the frame only logs its success, so the snapshot is never read once
    the buffer is unmapped. *)
Theorem snapshot_is_view (w : World) :
  wf w ->
  let sb := length (stagingBuffers w) in
  let ab := length (arrayBuffers w) in
  let at_unmap :=
    snd (update (Some {| fault_stage := SUnmap; fault_abort := false |}) w) in
  arrayBuffers at_unmap = arrayBuffers w ++ [MappedRange sb] /\
  on_mapped_memory at_unmap {| u8_buffer := ab |} = true /\
  view_bytes (stagingBuffers at_unmap) (arrayBuffers at_unmap)
    {| u8_buffer := ab |} = green_frame /\
  exists reads,
    trace (snd (update None w))
    = trace w ++ reads ++ [Unmap sb; Log "Frame updated successfully" []] /\
    count_effects is_unmap reads = 0%nat /\
    GetMappedRange sb ab ∈ reads /\
    Log "Total bytes:" [1920000] ∈ reads /\
    Log "Non-zero bytes:" [960000] ∈ reads /\
    Log "First non-zero byte index:" [1] ∈ reads /\
    PngWrite green_frame 800 600 ∈ reads /\
    TextureUpdate green_frame 3200 ∈ reads /\
    CanvasPresent ∈ reads.
Proof.
  intros Hw sb ab at_unmap.
  destruct (mapped_at_unmap false w Hw) as (Hheap & Hmapped & Hview).
  split; [exact Hheap|]. split; [exact Hmapped|]. split; [exact Hview|].
  rewrite (update_ok_world w Hw). cbn [snd trace]. fold sb ab.
  destruct (frame_effects_split (frameCount w) sb ab green_frame)
    as (Hsplit & Hnone & H14 & H16 & H17 & H18 & H28 & H31 & H34).
  rewrite byteLength_green_frame in H16.
  rewrite nonZeroCount_green_frame in H17.
  rewrite firstNonZero_green_frame in H18.
  exists (take 35 (frame_effects (frameCount w) sb ab green_frame)).
  split; [by rewrite <- Hsplit|]. split; [exact Hnone|].
  repeat split; eapply list_elem_of_lookup_2; eassumption.
Qed.

Lemma snapshot_is_view_witness :
  wf started /\
  arrayBuffers (snd (update (Some {| fault_stage := SUnmap;
                                     fault_abort := false |}) started))
  = arrayBuffers started ++ [MappedRange (length (stagingBuffers started))] /\
  on_mapped_memory
    (snd (update (Some {| fault_stage := SUnmap; fault_abort := false |})
            started))
    {| u8_buffer := length (arrayBuffers started) |} = true.
Proof.
  split; [exact wf_started|].
  destruct (snapshot_is_view started wf_started) as (Hheap & Hmapped & _).
  split; [exact Hheap | exact Hmapped].
Defined.

(** ** The order of a frame's steps *)

(** C6, as stated, fails: in the first frame after start-up the snapshot
    goes to the image encoder before it is presented, not after. *)
Lemma redraw_order_counterexample :
  steps (trace (snd (update None started)))
  <> [StepRender; StepPull; StepPresent; StepEncode].
Proof.
  rewrite (update_ok_world started wf_started). cbn [snd trace].
  rewrite steps_app, steps_frame, started_eq. cbn [trace]. discriminate.
Qed.

(** C6, amended.  A Redraw on which nothing throws does, in this order:
    render (build, dispatch, submit), readback (copy, map), the image
    encoder, present (texture upload, clear, copy, present), unmap.  The
    frame counter goes up once, at the end of [render] and so before the
    readback: the encoder already logs the new value, and a frame that
    fails after [render] has counted all the same, while one that fails
    inside [render] has not. *)
Theorem redraw_order (w : World) :
  wf w ->
  trace (snd (update None w))
  = trace w
    ++ frame_effects (frameCount w) (length (stagingBuffers w))
         (length (arrayBuffers w)) green_frame /\
  steps (trace (snd (update None w)))
  = steps (trace w) ++ [StepRender; StepPull; StepEncode; StepPresent] /\
  frameCount (snd (render None w)) = frameCount w + 1 /\
  frameCount (snd (update None w)) = frameCount w + 1 /\
  (forall f,
     frameCount (snd (update (Some f) w))
     = if in_render (fault_stage f) then frameCount w else frameCount w + 1).
Proof.
  intros Hw. rewrite render_ok, (update_ok_world w Hw).
  cbn [snd trace frameCount]. rewrite steps_app, steps_frame.
  split; [reflexivity|]. split; [reflexivity|].
  split; [reflexivity|]. split; [reflexivity|].
  intros f. by apply update_fault_frameCount.
Qed.

Lemma redraw_order_witness :
  wf started /\
  steps (trace (snd (update None started)))
  = steps (trace started) ++ [StepRender; StepPull; StepEncode; StepPresent] /\
  frameCount (snd (update (Some {| fault_stage := SCanvasPresent;
                                   fault_abort := false |}) started))
  = frameCount started + 1.
Proof.
  destruct (redraw_order started wf_started) as (_ & Hsteps & _ & _ & Hcount).
  split; [exact wf_started|]. split; [exact Hsteps|].
  exact (Hcount {| fault_stage := SCanvasPresent; fault_abort := false |}).
Defined.

(** ** The loop *)



(** C8.  When a Quit arrives, after any turns that neither quit nor
    abort and whatever is still pending behind it, [loop] returns in that
    very pass: the last thing it does is log the Quit (it does not even
    log that it leaves the loop), the pending turns are all left
    unconsumed, and the state it returns in does not depend on them. *)
Theorem quit_returns_at_once (pre : list Tick) (plan : option Fault) (w : World) :
  forallb goes_on pre = true ->
  exists w',
    last (trace w') = Some (Log "Quit event received" []) /\
    forall post,
      loop (pre ++ {| tick_next := Yields Quit; tick_plan := plan |} :: post) w
      = (Ok post, w').
Proof.
  intros Hpre.
  destruct (loop_from_goes_on pre (after w [Log "Entering main loop" []]) Hpre)
    as (w0 & Hloop & _).
  exists (after w0 [Log "Received event:" []; Log "Quit event received" []]).
  split.
  { cbn [trace after].
    replace (trace w0 ++ [Log "Received event:" []; Log "Quit event received" []])
      with ((trace w0 ++ [Log "Received event:" []])
            ++ [Log "Quit event received" []])
      by (by rewrite <- app_assoc).
    apply last_snoc. }
  intros post. unfold loop, bind at 1. cbn [log emit].
  change {| frameCount := frameCount w; renderBuffer := renderBuffer w;
            stagingBuffers := stagingBuffers w; arrayBuffers := arrayBuffers w;
            trace := trace w ++ [Log "Entering main loop" []] |}
    with (after w [Log "Entering main loop" []]).
  unfold bind. rewrite Hloop, loop_from_cons, iteration_quit by done.
  reflexivity.
Qed.

(** A Quit behind a failed Redraw and a key press, with a Redraw still
    pending behind it. *)
Lemma quit_returns_at_once_witness :
  forallb goes_on
    [{| tick_next := Yields Draw;
        tick_plan := Some {| fault_stage := SMapAsync; fault_abort := true |} |};
     {| tick_next := Yields KeyDown; tick_plan := None |}] = true /\
  exists w',
    last (trace w') = Some (Log "Quit event received" []) /\
    forall post,
      loop ([{| tick_next := Yields Draw;
                tick_plan := Some {| fault_stage := SMapAsync;
                                     fault_abort := true |} |};
             {| tick_next := Yields KeyDown; tick_plan := None |}]
            ++ {| tick_next := Yields Quit; tick_plan := None |} :: post)
        started
      = (Ok post, w').
Proof.
  split; [reflexivity|].
  exact (quit_returns_at_once
           [{| tick_next := Yields Draw;
               tick_plan := Some {| fault_stage := SMapAsync;
                                    fault_abort := true |} |};
            {| tick_next := Yields KeyDown; tick_plan := None |}]
           None started eq_refl).
Defined.

(** ** The staging buffer on the failure paths *)

(** C9 fails on the code.  Let [canvas.present()] throw in the first frame
    after start-up: the error is caught and logged, and the frame is over
    with its staging buffer still mapped; no [unmap] has taken place. *)
Theorem staging_left_mapped_when_present_fails :
  let w1 :=
    snd (update (Some {| fault_stage := SCanvasPresent; fault_abort := false |})
           started) in
  mapState <$> stagingBuffers w1 !! 0%nat = Some Mapped /\
  count_effects is_unmap (trace w1) = 0%nat /\
  last (trace w1)
  = Some (LogError "Error during update:" (Err (InFrame SCanvasPresent) false)).
Proof.
  intros w1. subst w1.
  destruct (update_fault_mapped
              {| fault_stage := SCanvasPresent; fault_abort := false |}
              started wf_started eq_refl) as (Hbufs & Hcount & _).
  rewrite Hbufs, Hcount.
  rewrite (update_fault_logged _ started wf_started).
  rewrite started_eq. cbn [stagingBuffers trace app]. split; [reflexivity|].
  split; reflexivity.
Qed.

(** ** The exit status *)

(** C10.  Whatever happens at start-up and whatever the event stream
    brings, the run ends in the [Deno.exit(0)] of the [finally]: the exit
    status is 0.  It is 0 as well when no adapter is found, a failure
    that is reported on the console as a fatal error. *)
Theorem exit_status_always_zero (env : Startup) (stream : list Tick) (w : World) :
  exit_status (fst (main env stream w)) = 0 /\
  last (trace (snd (main env stream w))) = Some (DenoExit 0) /\
  LogError "Fatal error:" (Err NoAdapter false)
    ∈ trace (snd (main {| adapter := AdapterNull; startup_fault := None |}
                    stream w)) /\
  exit_status (fst (main {| adapter := AdapterNull; startup_fault := None |}
                      stream w)) = 0.
Proof.
  destruct (main_reaches_exit env stream w) as [w1 ->].
  rewrite main_no_adapter. cbn [fst snd exit_status trace after].
  split; [reflexivity|].
  split.
  { replace (trace w1 ++ [Log "Cleaning up..." []; DenoExit 0])
      with ((trace w1 ++ [Log "Cleaning up..." []]) ++ [DenoExit 0])
      by (by rewrite <- app_assoc).
    apply last_snoc. }
  split; [|reflexivity].
  apply elem_of_app. right. apply list_elem_of_In. cbn [In]. tauto.
Qed.

(** * Further properties *)

(** ** The dispatch, for any buffer and any order of execution *)

Section DispatchFacts.

Variables width height : Z.

(** A word no invocation stores to is left as it was. *)
Lemma run_untouched order out (i : nat) :
  (forall gid v,
     gid ∈ order -> Shader.main_store width height gid ≠ Some (Z.of_nat i, v)) ->
  Shader.run width height order out !! i = out !! i.
Proof.
  unfold Shader.run. revert out.
  induction order as [|g order IH]; intros out Hno; [done|].
  cbn [foldl]. rewrite IH.
  - unfold Shader.main.
    destruct (Shader.main_store width height g) as [[j v]|] eqn:Hst; [|done].
    apply list_lookup_insert_ne. intros <-.
    apply (Hno g v); [by left|].
    pose proof (main_store_Some _ _ _ _ _ Hst) as (_ & _ & ?).
    rewrite Z2Nat.id by lia. done.
  - intros gid v Hin. apply Hno. by right.
Qed.

Lemma ceil_div_16_exact : width mod 16 = 0 -> ceil_div width 16 * 16 = width.
Proof.
  intros Hmod. unfold ceil_div.
  pose proof (Z.div_mod width 16 ltac:(lia)).
  pose proof (Z.div_mod (width + 16 - 1) 16 ltac:(lia)).
  pose proof (Z.mod_pos_bound (width + 16 - 1) 16 ltac:(lia)). lia.
Qed.

Lemma ceil_div_16_upper : ceil_div height 16 * 16 <= height + 15.
Proof.
  unfold ceil_div.
  pose proof (Z.div_mod (height + 16 - 1) 16 ltac:(lia)).
  pose proof (Z.mod_pos_bound (height + 16 - 1) 16 ltac:(lia)). lia.
Qed.

End DispatchFacts.

(** X1.  Whatever the order in which the invocations of the grid run, and
    whatever the size of the bound buffer, the dispatch leaves the first
    [width * height] words that exist green and every word beyond them
    untouched. *)
Theorem dispatch_any_order (width height : Z) (order : list vec3u) (out : list Z) :
  0 < width -> 0 < height -> width * height < 2 ^ 32 ->
  (forall gid,
     gid ∈ Shader.invocations (ceil_div width 16) (ceil_div height 16) ->
     gid ∈ order) ->
  Shader.run width height order out
  = replicate (length out `min` Z.to_nat (width * height)) GREEN
    ++ drop (Z.to_nat (width * height)) out.
Proof.
  intros Hw Hh Hsmall Hall. apply list_eq. intros i.
  destruct (decide (i < Z.to_nat (width * height))%nat) as [Hi|Hi].
  - destruct (decide (i < length out)%nat) as [Hlen|Hlen].
    + rewrite lookup_app_l by (rewrite length_replicate; lia).
      rewrite lookup_replicate_2 by lia.
      destruct (texel_covered width height Hw Hh (Z.of_nat i) Hsmall ltac:(lia))
        as [Hin Hst].
      eapply run_writes; [apply Hall, Hin|exact Hst|exact Hlen].
    + rewrite (lookup_ge_None_2 (Shader.run _ _ _ _))
        by (rewrite run_length; lia).
      symmetry. apply lookup_ge_None_2.
      rewrite length_app, length_replicate, length_drop. lia.
  - rewrite run_untouched.
    + destruct (decide (i < length out)%nat) as [Hlen|Hlen].
      * rewrite lookup_app_r by (rewrite length_replicate; lia).
        rewrite length_replicate, lookup_drop. f_equal. lia.
      * rewrite (lookup_ge_None_2 out) by lia.
        symmetry. apply lookup_ge_None_2.
        rewrite length_app, length_replicate, length_drop. lia.
    + intros gid v _ Hst.
      apply main_store_Some in Hst as (_ & _ & Hlt).
      pose proof (wrap32_le (width * height) ltac:(nia)). lia.
Qed.

(** A 3 x 2 frame in a buffer of eight words, the grid run backwards. *)
Lemma dispatch_any_order_witness :
  0 < 3 /\ 0 < 2 /\ 3 * 2 < 2 ^ 32 /\
  Shader.run 3 2
    (reverse (Shader.invocations (ceil_div 3 16) (ceil_div 2 16)))
    [7; 7; 7; 7; 7; 7; 7; 7]
  = [GREEN; GREEN; GREEN; GREEN; GREEN; GREEN; 7; 7].
Proof.
  split; [lia|]. split; [lia|]. split; [lia|].
  apply (dispatch_any_order 3 2
           (reverse (Shader.invocations (ceil_div 3 16) (ceil_div 2 16)))
           [7; 7; 7; 7; 7; 7; 7; 7]); [lia | lia | lia |].
  intros gid Hin. apply elem_of_reverse. exact Hin.
Defined.

(** X2.  When the width is a multiple of 16, as 800 is, the grid has no
    spare column, and no two invocations of the dispatch store to the same
    texel: the index of a store determines the invocation. *)
Theorem texel_stored_once (width height : Z) (gid gid' : vec3u) (i v v' : Z) :
  0 < width -> 0 < height -> width mod 16 = 0 ->
  (height + 15) * width < 2 ^ 32 ->
  gid ∈ Shader.invocations (ceil_div width 16) (ceil_div height 16) ->
  gid' ∈ Shader.invocations (ceil_div width 16) (ceil_div height 16) ->
  Shader.main_store width height gid = Some (i, v) ->
  Shader.main_store width height gid' = Some (i, v') ->
  gid = gid'.
Proof.
  intros Hw Hh Hmod Hsmall Hin Hin' Hst Hst'.
  apply elem_of_invocations in Hin as (Hx & Hy & Hz).
  apply elem_of_invocations in Hin' as (Hx' & Hy' & Hz').
  rewrite (ceil_div_16_exact width Hmod) in Hx, Hx'.
  pose proof (ceil_div_16_upper height) as Hup.
  apply main_store_Some in Hst as (Hi & _ & _).
  apply main_store_Some in Hst' as (Hi' & _ & _).
  assert (forall g, 0 <= vx g < width -> 0 <= vy g < height + 15 ->
            Shader.index_of width g = vy g * width + vx g) as Hidx.
  { intros g Hgx Hgy. unfold Shader.index_of.
    assert (0 <= vy g * width) by nia.
    assert (vy g * width + vx g < (height + 15) * width) by nia.
    rewrite (wrap32_small (vy g * width)) by lia.
    apply wrap32_small. lia. }
  rewrite Hidx in Hi by lia. rewrite Hidx in Hi' by lia.
  destruct gid as [x y z], gid' as [x' y' z']. cbn [vx vy vz] in *.
  assert (y = y') by nia. subst. f_equal; lia.
Qed.

(** The 800 x 600 frame of the renderer, and the invocation (5, 7). *)
Lemma texel_stored_once_witness :
  0 < 800 /\ 0 < 600 /\ 800 mod 16 = 0 /\ (600 + 15) * 800 < 2 ^ 32 /\
  Vec3 5 7 0 ∈ Shader.invocations (ceil_div 800 16) (ceil_div 600 16) /\
  Shader.main_store 800 600 (Vec3 5 7 0) = Some (5605, GREEN) /\
  Vec3 5 7 0 = Vec3 5 7 0.
Proof.
  assert (Vec3 5 7 0 ∈ Shader.invocations (ceil_div 800 16) (ceil_div 600 16))
    as Hin.
  { apply elem_of_invocations. cbn [vx vy vz].
    change (ceil_div 800 16) with 50. change (ceil_div 600 16) with 38. lia. }
  split; [lia|]. split; [lia|]. split; [reflexivity|]. split; [lia|].
  split; [exact Hin|]. split; [reflexivity|].
  apply (texel_stored_once 800 600 (Vec3 5 7 0) (Vec3 5 7 0) 5605 GREEN GREEN);
    [lia | lia | reflexivity | lia | exact Hin | exact Hin
    | reflexivity | reflexivity].
Defined.

(** ** The loop, turn by turn *)

Lemma after_after w es1 es2 : after (after w es1) es2 = after w (es1 ++ es2).
Proof. unfold after. cbn. by rewrite app_assoc. Qed.

Lemma after_nil w : after w [] = w.
Proof. destruct w. unfold after. cbn. by rewrite app_nil_r. Qed.






Lemma iteration_reject t w :
  tick_next t = Rejects false ->
  iteration (Some t) w
  = (Ok Continue, after w [LogError "Error in event loop:" (Err InNext false)]).
Proof.
  intros Ht. destruct t as [nx plan]. cbn [tick_next] in Ht. subst nx.
  reflexivity.
Qed.

(** A turn that does not draw only logs. *)
Lemma iteration_idle t w :
  idle t = true ->
  exists es,
    forallb is_log es = true /\
    iteration (Some t) w = (Ok Continue, after w es).
Proof.
  destruct t as [[[| | | |code]|[|]] plan]; unfold idle, goes_on, is_draw;
    cbn [tick_next negb andb]; try discriminate; intros _.
  - exists [Log "Received event:" []; Log "KeyDown event received" []].
    split; [reflexivity|]. run_iteration. by rewrite <- app_assoc.
  - exists [Log "Received event:" []].
    split; [reflexivity|]. reflexivity.
  - exists [Log "Received event:" [code]; Log "Unhandled event type:" [code]].
    split; [reflexivity|]. run_iteration. by rewrite <- app_assoc.
  - exists [LogError "Error in event loop:" (Err InNext false)].
    split; [reflexivity|]. reflexivity.
Qed.

(** Entering the loop, up to the first turn. *)
Lemma loop_unfold stream w :
  loop stream w
  = match loop_from stream (after w [Log "Entering main loop" []]) with
    | (Ok (Return, rest), w') => (Ok rest, w')
    | (Ok (_, rest), w') => (Ok rest, after w' [Log "Exiting main loop" []])
    | (Throw e, w') => (Throw e, w')
    | (Exited code, w') => (Exited code, w')
    end.
Proof.
  unfold loop, bind at 1. cbn [log emit]. unfold bind.
  change {| frameCount := frameCount w; renderBuffer := renderBuffer w;
            stagingBuffers := stagingBuffers w; arrayBuffers := arrayBuffers w;
            trace := trace w ++ [Log "Entering main loop" []] |}
    with (after w [Log "Entering main loop" []]).
  destruct (loop_from stream (after w [Log "Entering main loop" []]))
    as [[[[| |] rest]|e|code] w']; reflexivity.
Qed.

(** X3.  What [next()] throws decides whether the loop goes on.  An
    [AbortError] ends it by [break]: it is logged, then "Event stream
    aborted" and "Exiting main loop", and the turns behind it are left
    unconsumed.  Any other error is logged and the loop takes the next
    turn, in the state it was in. *)
Theorem next_rejection (pre : list Tick) (plan : option Fault) (w : World) :
  forallb goes_on pre = true ->
  (exists w0,
     forall post,
       loop (pre ++ {| tick_next := Rejects true; tick_plan := plan |} :: post) w
       = (Ok post,
          after w0 [LogError "Error in event loop:" (Err InNext true);
                    Log "Event stream aborted" [];
                    Log "Exiting main loop" []])) /\
  (forall rest w1,
     loop_from ({| tick_next := Rejects false; tick_plan := plan |} :: rest) w1
     = loop_from rest
         (after w1 [LogError "Error in event loop:" (Err InNext false)])).
Proof.
  intros Hpre. split.
  - destruct (loop_from_goes_on pre (after w [Log "Entering main loop" []]) Hpre)
      as (w0 & Hloop & _).
    exists w0. intros post.
    rewrite loop_unfold, Hloop, loop_from_cons, iteration_abort by done.
    by rewrite after_after.
  - intros rest w1. by rewrite loop_from_cons, iteration_reject.
Qed.

Lemma next_rejection_witness :
  forallb goes_on [{| tick_next := Yields MouseMotion; tick_plan := None |}]
  = true /\
  exists w0,
    forall post,
      loop ([{| tick_next := Yields MouseMotion; tick_plan := None |}]
            ++ {| tick_next := Rejects true; tick_plan := None |} :: post)
        started
      = (Ok post,
         after w0 [LogError "Error in event loop:" (Err InNext true);
                   Log "Event stream aborted" [];
                   Log "Exiting main loop" []]).
Proof.
  split; [reflexivity|].
  exact (proj1 (next_rejection
                  [{| tick_next := Yields MouseMotion; tick_plan := None |}]
                  None started eq_refl)).
Defined.

(** X4.  When the stream closes after turns that neither quit nor abort,
    every turn has been consumed and the loop ends by [break]: the last
    things it logs are "Event stream closed" and "Exiting main loop". *)
Theorem stream_closure (stream : list Tick) (w : World) :
  forallb goes_on stream = true ->
  exists w0,
    loop stream w
    = (Ok [], after w0 [Log "Event stream closed" [];
                        Log "Exiting main loop" []]).
Proof.
  intros Hgo.
  destruct (loop_from_goes_on stream (after w [Log "Entering main loop" []]) Hgo)
    as (w0 & Hloop & _).
  exists w0. specialize (Hloop []). rewrite app_nil_r in Hloop.
  rewrite loop_unfold, Hloop. cbn [loop_from]. unfold bind.
  rewrite iteration_done. cbn [ret]. by rewrite after_after.
Qed.

Lemma stream_closure_witness :
  forallb goes_on
    [{| tick_next := Yields Draw; tick_plan := None |};
     {| tick_next := Rejects false; tick_plan := None |}] = true /\
  exists w0,
    loop [{| tick_next := Yields Draw; tick_plan := None |};
          {| tick_next := Rejects false; tick_plan := None |}] started
    = (Ok [], after w0 [Log "Event stream closed" [];
                        Log "Exiting main loop" []]).
Proof.
  split; [reflexivity|].
  exact (stream_closure
           [{| tick_next := Yields Draw; tick_plan := None |};
            {| tick_next := Rejects false; tick_plan := None |}]
           started eq_refl).
Defined.

(** X5.  Turns that are not Redraws (key presses, pointer moves, events
    of other types, failed [next()] calls) only write to the console: the
    counter, the output buffer, the staging buffers and the heap are as
    they were, and the device and the window are not touched. *)
Theorem idle_turns_only_log (pre : list Tick) (w : World) :
  forallb idle pre = true ->
  exists es,
    forallb is_log es = true /\
    forall rest, loop_from (pre ++ rest) w = loop_from rest (after w es).
Proof.
  revert w. induction pre as [|t pre IH]; intros w Hpre.
  { exists []. split; [reflexivity|]. intros rest. by rewrite after_nil. }
  cbn [forallb] in Hpre. apply andb_prop in Hpre as [Ht Hpre].
  destruct (iteration_idle t w Ht) as (es1 & Hlog1 & Hit).
  destruct (IH (after w es1) Hpre) as (es2 & Hlog2 & Hloop).
  exists (es1 ++ es2). split.
  { rewrite forallb_app, Hlog1, Hlog2. reflexivity. }
  intros rest. cbn [app]. rewrite loop_from_cons, Hit, Hloop.
  by rewrite after_after.
Qed.

Lemma idle_turns_only_log_witness :
  forallb idle
    [{| tick_next := Yields KeyDown; tick_plan := None |};
     {| tick_next := Yields (Unhandled 7); tick_plan := None |}] = true /\
  exists es,
    forallb is_log es = true /\
    forall rest,
      loop_from
        ([{| tick_next := Yields KeyDown; tick_plan := None |};
          {| tick_next := Yields (Unhandled 7); tick_plan := None |}] ++ rest)
        started
      = loop_from rest (after started es).
Proof.
  split; [reflexivity|].
  exact (idle_turns_only_log
           [{| tick_next := Yields KeyDown; tick_plan := None |};
            {| tick_next := Yields (Unhandled 7); tick_plan := None |}]
           started eq_refl).
Defined.





(** X8.  One pass through the body of the loop never throws and never
    ends the process, whatever [next()] brings and whatever the platform
    does during the frame: the [catch] of [update] and the [catch] of the
    loop body take every error.  The pass ends with [return] exactly on a
    Quit, with [break] exactly on a closed stream or an [AbortError] from
    [next()], and goes on to the next pass in every other case, a failed
    Redraw included. *)
Theorem pass_ends_as_next_says (t : option Tick) (w : World) :
  exists w', iteration t w = (Ok (pass_end t), w').
Proof.
  destruct t as [t|]; [|eexists; apply iteration_done].
  destruct (goes_on t) eqn:Hgo.
  - destruct (iteration_goes_on t w Hgo) as (w' & Hit & _).
    exists w'. rewrite Hit. f_equal. f_equal.
    destruct t as [[[| | | |code]|[|]] plan]; try discriminate; reflexivity.
  - destruct t as [[[| | | |code]|[|]] plan]; try discriminate.
    + eexists. by apply iteration_quit.
    + eexists. by apply iteration_abort.
Qed.

(** ** Frames that fail, in full *)

Lemma copied_frame :
  copy_words (800 * 600 * 4) (replicate (Z.to_nat (800 * 600)) GREEN)
    (zeroed (800 * 600 * 4))
  = replicate (Z.to_nat (800 * 600)) GREEN.
Proof.
  apply copy_words_all.
  - rewrite length_replicate. f_equal.
  - apply length_zeroed.
Qed.

(** X9.  A frame that fails inside [render] is logged twice, by the
    [catch] of [render], which throws the error on, and by the [catch] of
    [update]; apart from the console, the renderer is as it was: same
    counter, same output buffer, no staging buffer, no mapped range. *)
Theorem failed_render_changes_nothing (f : Fault) (w : World) :
  in_render (fault_stage f) = true ->
  snd (update (Some f) w)
  = after w
      ([Log "Updating frame" [frameCount w];
        Log "Rendering frame" [frameCount w]]
       ++ render_progress (fault_stage f)
       ++ [LogError "Error during rendering:"
             (Err (InFrame (fault_stage f)) (fault_abort f));
           LogError "Error during update:"
             (Err (InFrame (fault_stage f)) (fault_abort f))]).
Proof.
  destruct w as [n rb sbs abs tr].
  destruct f as [s a]; destruct s; try discriminate; intros _; run_frame;
    eval_consts; unfold after;
    cbn [snd frameCount renderBuffer stagingBuffers arrayBuffers trace
         fault_stage fault_abort render_progress app];
    rewrite <- !app_assoc; reflexivity.
Qed.

Lemma failed_render_changes_nothing_witness :
  in_render SRenderSubmit = true /\
  snd (update (Some {| fault_stage := SRenderSubmit; fault_abort := false |})
         started)
  = after started
      ([Log "Updating frame" [frameCount started];
        Log "Rendering frame" [frameCount started]]
       ++ render_progress SRenderSubmit
       ++ [LogError "Error during rendering:" (Err (InFrame SRenderSubmit) false);
           LogError "Error during update:" (Err (InFrame SRenderSubmit) false)]).
Proof.
  split; [reflexivity|].
  exact (failed_render_changes_nothing
           {| fault_stage := SRenderSubmit; fault_abort := false |}
           started eq_refl).
Defined.

(** X10.  What a failed frame leaves in the store of staging buffers,
    call site by call site: nothing if it fails before the buffer is
    created; otherwise one more buffer, which is never destroyed, is
    zero-filled if the copy was not submitted and holds the frame if it
    was, and is still mapped exactly when the failure comes after
    [mapAsync].  The buffers of earlier frames are not touched. *)
Theorem failed_frame_leaves_buffer (f : Fault) (w : World) :
  wf w ->
  stagingBuffers (snd (update (Some f) w))
  = stagingBuffers w ++ left_behind (fault_stage f).
Proof.
  intros Hlen. destruct w as [n rb sbs abs tr]. apply wf_length in Hlen.
  cbn [renderBuffer] in Hlen.
  destruct f as [s a]; destruct s; run_frame;
    run_view (mapped_view rb sbs abs Hlen) green_frame_fits;
    cbn [snd stagingBuffers fault_stage left_behind in_render];
    rewrite ?app_nil_r, ?(staged_frame rb sbs Hlen), ?alter_fresh;
    cbn [set_contents set_mapState contents mapState];
    rewrite ?(render_dispatch rb Hlen), ?copied_frame; reflexivity.
Qed.

Lemma failed_frame_leaves_buffer_witness :
  wf started /\
  stagingBuffers
    (snd (update (Some {| fault_stage := SMapAsync; fault_abort := false |})
            started))
  = stagingBuffers started ++ left_behind SMapAsync.
Proof.
  split; [exact wf_started|].
  exact (failed_frame_leaves_buffer
           {| fault_stage := SMapAsync; fault_abort := false |}
           started wf_started).
Defined.

(** ** Frames that succeed, one after the other *)

(** X11.  Nothing is reused from frame to frame: each frame on which
    nothing throws allocates a staging buffer of its own and maps a range
    of its own, so after [k] such frames, from any state of the renderer,
    there are [k] more staging buffers, each unmapped and holding a whole
    frame, behind the earlier ones, which are untouched, and [k] more
    [ArrayBuffer]s; and the counter has advanced by [k]. *)
Theorem clean_frames_allocate (k : nat) (w : World) :
  wf w ->
  stagingBuffers (frames k w)
  = stagingBuffers w
    ++ replicate k {| contents := replicate (Z.to_nat (800 * 600)) GREEN;
                      mapState := Unmapped |} /\
  length (arrayBuffers (frames k w)) = (length (arrayBuffers w) + k)%nat /\
  frameCount (frames k w) = frameCount w + Z.of_nat k.
Proof.
  intros Hw. induction k as [|k (IHs & IHa & IHn)].
  { cbn. rewrite !app_nil_r. repeat split; lia. }
  rewrite frames_S, (update_ok_world _ (wf_frames k w Hw)).
  cbn [snd stagingBuffers arrayBuffers frameCount].
  rewrite IHs, IHn, replicate_S_end, !app_assoc.
  split; [reflexivity|]. split; [|lia].
  rewrite length_app, length_fmap, IHa. cbn [length]. lia.
Qed.

Lemma clean_frames_allocate_witness :
  wf started /\
  stagingBuffers (frames 3 started)
  = stagingBuffers started
    ++ replicate 3 {| contents := replicate (Z.to_nat (800 * 600)) GREEN;
                      mapState := Unmapped |} /\
  length (arrayBuffers (frames 3 started))
  = (length (arrayBuffers started) + 3)%nat /\
  frameCount (frames 3 started) = frameCount started + Z.of_nat 3.
Proof.
  split; [exact wf_started|].
  exact (clean_frames_allocate 3 started wf_started).
Defined.

(** ** [saveRenderedImage] *)




Lemma green_pixel (k : Z) :
  0 <= k < 800 * 600 ->
  take 4 (drop (4 * Z.to_nat k) green_frame) = [0; 255; 0; 255].
Proof. intros Hk. exact (texel_green_frame k Hk). Qed.

(** X13.  In a frame on which nothing throws, the five pixels logged by
    [saveRenderedImage] read R=0, G=255, B=0, A=255, opaque green in the
    byte order of the window's ABGR8888 texture, and the data length
    logged is the expected length, 1,920,000. *)
Theorem logged_pixels_are_green (w : World) (k : Z) :
  wf w ->
  0 <= k < 5 ->
  Log "Pixel" [k; 0; 255; 0; 255] ∈ trace (snd (update None w)) /\
  Log "Data length:" [1920000] ∈ trace (snd (update None w)) /\
  Log "Expected length:" [1920000] ∈ trace (snd (update None w)).
Proof.
  intros Hw Hk. rewrite (update_ok_world w Hw). cbn [snd trace].
  pose proof (green_pixel 0 ltac:(lia)) as H0.
  pose proof (green_pixel 1 ltac:(lia)) as H1.
  pose proof (green_pixel 2 ltac:(lia)) as H2.
  pose proof (green_pixel 3 ltac:(lia)) as H3.
  pose proof (green_pixel 4 ltac:(lia)) as H4.
  change (4 * Z.to_nat 0)%nat with 0%nat in H0. rewrite drop_0 in H0.
  change (4 * Z.to_nat 1)%nat with 4%nat in H1.
  change (4 * Z.to_nat 2)%nat with 8%nat in H2.
  change (4 * Z.to_nat 3)%nat with 12%nat in H3.
  change (4 * Z.to_nat 4)%nat with 16%nat in H4.
  unfold frame_effects.
  rewrite H0, H1, H2, H3, H4, byteLength_green_frame.
  split; [|split].
  - apply elem_of_app. right.
    assert (k = 0 \/ k = 1 \/ k = 2 \/ k = 3 \/ k = 4) as Hcases by lia.
    destruct Hcases as [->|[->|[->|[->| ->]]]].
    + by apply (list_elem_of_lookup_2 _ 23).
    + by apply (list_elem_of_lookup_2 _ 24).
    + by apply (list_elem_of_lookup_2 _ 25).
    + by apply (list_elem_of_lookup_2 _ 26).
    + by apply (list_elem_of_lookup_2 _ 27).
  - apply elem_of_app. right. by apply (list_elem_of_lookup_2 _ 20).
  - apply elem_of_app. right. by apply (list_elem_of_lookup_2 _ 21).
Qed.

Lemma logged_pixels_are_green_witness :
  wf started /\ 0 <= 3 < 5 /\
  Log "Pixel" [3; 0; 255; 0; 255] ∈ trace (snd (update None started)).
Proof.
  split; [exact wf_started|]. split; [lia|].
  exact (proj1 (logged_pixels_are_green started 3 wf_started ltac:(lia))).
Defined.

(** ** Start-up *)

Ltac run_main :=
  lazy beta iota zeta delta
    [main getDevice constructor init healthy startup_call adapter
     startup_fault try_finally try_catch bind ret throw log logError emit
     modify exit with_frameCount with_renderBuffer after start snd
     frameCount renderBuffer stagingBuffers arrayBuffers trace].

Ltac find_in_trace :=
  repeat (apply elem_of_app;
          first [ right; apply list_elem_of_singleton; reflexivity | left ]).

(** X14.  When start-up fails (no adapter, or a call of [getDevice] or of
    the constructor that throws) the loop is never entered: the run does
    not depend on the event stream at all, the failure is reported as a
    fatal error, and the process exits with status 0. *)
Theorem failed_startup_skips_loop (env : Startup) (w : World) :
  startup_fails env = true ->
  (forall stream stream', main env stream w = main env stream' w) /\
  (exists e, LogError "Fatal error:" e ∈ trace (snd (main env [] w))) /\
  fst (main env [] w) = Exited 0.
Proof.
  destruct env as [[|] [[[| | |] a]|]]; try discriminate; intros _;
    (split; [intros stream stream'; run_main;
             repeat match goal with
               | |- context [bool_decide (@eq StartupStage ?a ?b)] =>
                   let v := eval vm_compute in (bool_decide (a = b)) in
                   change (bool_decide (a = b)) with v
               end; reflexivity|]);
    (split; [eexists|]); run_main;
    repeat match goal with
      | |- context [bool_decide (@eq StartupStage ?a ?b)] =>
          let v := eval vm_compute in (bool_decide (a = b)) in
          change (bool_decide (a = b)) with v
      end; cbv beta iota; try reflexivity; find_in_trace.
Qed.

Lemma failed_startup_skips_loop_witness :
  startup_fails {| adapter := AdapterFound;
                   startup_fault := Some (SRequestDevice, false) |} = true /\
  forall stream stream',
    main {| adapter := AdapterFound;
            startup_fault := Some (SRequestDevice, false) |} stream boot
    = main {| adapter := AdapterFound;
              startup_fault := Some (SRequestDevice, false) |} stream' boot.
Proof.
  split; [reflexivity|].
  exact (proj1 (failed_startup_skips_loop
                  {| adapter := AdapterFound;
                     startup_fault := Some (SRequestDevice, false) |}
                  boot eq_refl)).
Defined.

(** X15.  On a healthy platform a run is start-up, the loop, and then
    "Application finished normally", "Cleaning up..." and [Deno.exit(0)]:
    the normal end is logged however the loop was left (Quit, abort or a
    closed stream) and however many frames failed in it.  The loop starts
    with the counter at 0 and an output buffer of 480,000 words. *)
Theorem healthy_run (stream : list Tick) (w : World) :
  main healthy stream w
  = (Exited 0,
     after (snd (loop stream (start w)))
       [Log "Application finished normally" [];
        Log "Cleaning up..." []; DenoExit 0]) /\
  wf (start w) /\ frameCount (start w) = 0.
Proof.
  split.
  - run_main.
    match goal with |- context [loop stream ?W] =>
      destruct (loop_completes stream W) as [rest Hc];
      destruct (loop stream W) as [r w'] end.
    cbn [fst] in Hc. subst r. cbv beta iota.
    by rewrite <- !app_assoc.
  - split; [|reflexivity]. unfold wf. run_main.
    rewrite length_zeroed. f_equal.
Qed.
